(** * pkg/client: the cache-backed controller client of the
      zero-trust-workload-identity-manager operator

    A shallow embedding of [src/pkg/client/client.go].

    The struct [customCtrlClientImpl] embeds a [client.Client] (built by
    [BuildCustomClient] with [Cache.Reader] set to the custom informer cache)
    and holds an [apiReader] (the manager's API reader).  Both are Go
    interfaces, so every method of the wrapper is embedded as a program over
    the calls it makes on these two interfaces; a handler (any implementation
    of the interfaces over any world state) gives such a program its result,
    its final world and the trace of calls it made. *)

From Stdlib Require Import String List ZArith Bool Permutation Lia.
Import ListNotations.
Open Scope string_scope.
Open Scope list_scope.

Set Implicit Arguments.

(* ===================================================================== *)
(** ** Objects and keys *)
(* ===================================================================== *)

(** The dynamic types that occur in the three resource tables of client.go
    (lines 35-76); [OtherKind] stands for any other typed [client.Object]. *)
Inductive Kind : Type :=
| Role
| RoleBinding
| ClusterRole
| ClusterRoleBinding
| CSIDriver
| ServiceAccount
| Service
| ConfigMap
| Deployment
| DaemonSet
| StatefulSet
| ValidatingWebhookConfiguration
| ZeroTrustWorkloadIdentityManager
| SpireAgent
| SpiffeCSIDriver
| SpireServer
| SpireOIDCDiscoveryProvider
| OtherKind (gvk : string).

Definition Kind_eq_dec : forall a b : Kind, {a = b} + {a <> b}.
Proof. decide equality. apply string_dec. Defined.

Definition Kind_eqb (a b : Kind) : bool :=
  if Kind_eq_dec a b then true else false.

(** [types.NamespacedName], alias [client.ObjectKey]. *)
Record ObjectKey : Type := mkKey {
  Namespace : string;
  Name : string
}.

(** The contents of the struct a [client.Object] points to: its dynamic
    type, the metadata the client reads or writes, and the remaining fields
    as opaque payloads. *)
Record Object : Type := mkObject {
  objKind : Kind;
  objNamespace : string;
  objName : string;
  objResourceVersion : string;
  objLabels : list (string * string);
  objSpec : string;
  objStatus : string
}.

(** [reflect.New(reflect.TypeOf(obj).Elem()).Interface().(client.Object)]:
    a pointer to a new zero value of the dynamic type of [obj]. *)
Definition zeroObject (k : Kind) : Object :=
  mkObject k "" "" "" [] "" "".

(** [obj.SetResourceVersion(v)]. *)
Definition SetResourceVersion (v : string) (o : Object) : Object :=
  mkObject (objKind o) (objNamespace o) (objName o) v
           (objLabels o) (objSpec o) (objStatus o).

Definition GetResourceVersion (o : Object) : string := objResourceVersion o.
Definition GetName (o : Object) : string := objName o.
Definition GetNamespace (o : Object) : string := objNamespace o.

(** Two objects agree on every field except, possibly, the resource
    version. *)
Definition sameButResourceVersion (a b : Object) : Prop :=
  objKind a = objKind b /\ objNamespace a = objNamespace b /\
  objName a = objName b /\ objLabels a = objLabels b /\
  objSpec a = objSpec b /\ objStatus a = objStatus b.

(* ===================================================================== *)
(** ** Errors and their classification *)
(* ===================================================================== *)

(** The classification functions are those of
    [k8s.io/apimachinery/pkg/api/errors], imported at client.go:10 and 26.

    A non-nil Go [error]; a nilable one is an [option error].
    - [StatusError]: an API status error with its reason and HTTP code;
    - [ErrorString]: any other leaf error;
    - [Sentinel]: one of the three error values [wait.Interrupted] looks
      for, [context.Canceled], [context.DeadlineExceeded] and the timeout of
      the wait package;
    - [Errorf format keys inner]: [fmt.Errorf(format, keys..., inner)] where
      the keys are the %q operands and [inner] is the %w operand. *)
Inductive sentinel : Type :=
| ContextCanceled
| ContextDeadlineExceeded
| WaitTimeout.

Inductive error : Type :=
| StatusError (reason : string) (code : Z) (message : string)
| ErrorString (message : string)
| Sentinel (s : sentinel)
| Errorf (format : string) (keys : list ObjectKey) (inner : error).

Definition StatusReasonUnknown := "".
Definition StatusReasonNotFound := "NotFound".
Definition StatusReasonAlreadyExists := "AlreadyExists".
Definition StatusReasonConflict := "Conflict".

Definition knownReasons : list string :=
  [ "Unauthorized"; "Forbidden"; "NotFound"; "AlreadyExists"; "Conflict";
    "Gone"; "Invalid"; "ServerTimeout"; "Timeout"; "TooManyRequests";
    "BadRequest"; "MethodNotAllowed"; "NotAcceptable";
    "RequestEntityTooLarge"; "UnsupportedMediaType"; "InternalError";
    "Expired"; "ServiceUnavailable" ].

Definition isKnownReason (r : string) : bool :=
  existsb (String.eqb r) knownReasons.

(** [errors.As] walks the %w chain down to the first API status. *)
Fixpoint reasonAndCodeForError (e : error) : string * Z :=
  match e with
  | StatusError reason code _ => (reason, code)
  | ErrorString _ => (StatusReasonUnknown, 0%Z)
  | Sentinel _ => (StatusReasonUnknown, 0%Z)
  | Errorf _ _ inner => reasonAndCodeForError inner
  end.

Definition ReasonForError (e : error) : string :=
  fst (reasonAndCodeForError e).

Definition IsNotFound (e : error) : bool :=
  let '(reason, code) := reasonAndCodeForError e in
  String.eqb reason StatusReasonNotFound
  || (negb (isKnownReason reason) && Z.eqb code 404).

Definition IsAlreadyExists (e : error) : bool :=
  String.eqb (ReasonForError e) StatusReasonAlreadyExists.

Definition IsConflict (e : error) : bool :=
  let '(reason, code) := reasonAndCodeForError e in
  String.eqb reason StatusReasonConflict
  || (negb (isKnownReason reason) && Z.eqb code 409).

(* ===================================================================== *)
(** ** Programs over interface calls *)
(* ===================================================================== *)

(** A program that issues calls of type [C], each answered by an [R], and
    finally returns an [A]. *)
Inductive Prog (C R A : Type) : Type :=
| Ret (a : A)
| Do (c : C) (k : R -> Prog C R A).

Arguments Ret {C R A} a.
Arguments Do {C R A} c k.

Fixpoint bind {C R A B} (p : Prog C R A) (f : A -> Prog C R B) : Prog C R B :=
  match p with
  | Ret a => f a
  | Do c k => Do c (fun r => bind (k r) f)
  end.

(** Running a program against a handler [h] from world [w]: the value, the
    final world, and the calls made with their answers, in order. *)
Fixpoint run {C R A W} (h : C -> W -> R * W) (p : Prog C R A) (w : W)
  : A * W * list (C * R) :=
  match p with
  | Ret a => (a, w, [])
  | Do c k =>
      let '(r, w1) := h c w in
      let '(a, w2, tr) := run h (k r) w1 in
      (a, w2, (c, r) :: tr)
  end.

Definition valueOf {A W E} (x : A * W * list E) : A := fst (fst x).
Definition worldOf {A W E} (x : A * W * list E) : W := snd (fst x).
Definition traceOf {A W E} (x : A * W * list E) : list E := snd x.

(* ===================================================================== *)
(** ** The calls of [customCtrlClientImpl] *)
(* ===================================================================== *)

(** Calls on the two fields of [customCtrlClientImpl].  [ClientGet] is
    [c.Client.Get], [ApiReaderGet] is [c.apiReader.Get]; the write calls go
    to [c.Client].  [Sleep] is the [time.Sleep] of the backoff. *)
Inductive Call : Type :=
| ClientGet (key : ObjectKey) (into : Object)
| ApiReaderGet (key : ObjectKey) (into : Object)
| ClientCreate (obj : Object) (opts : list string)
| ClientUpdate (obj : Object) (opts : list string)
| ClientStatusUpdate (obj : Object) (opts : list string)
| Sleep.

(** The answer to a call: the contents of the object the call was given a
    pointer to, as the call left them, and the returned error. *)
Record Reply : Type := mkReply {
  after : Object;
  err : option error
}.

Abbreviation Event := (Call * Reply)%type.

(** Which reader serves a call.  [NewCustomClient] (lines 105-108) stores in
    [Client] the client that [BuildCustomClient] creates with
    [Cache: &client.CacheOptions{Reader: customCache}] (lines 254-261), so
    its [Get] of a typed object, which is what [Kind] covers, is answered by
    the informer cache; [apiReader] is [m.GetAPIReader()], which reads the
    API server. *)
Inductive Backend : Type := InformerCache | ApiServer | NoBackend.

Definition servedBy (c : Call) : Backend :=
  match c with
  | ClientGet _ _ => InformerCache
  | ApiReaderGet _ _ => ApiServer
  | ClientCreate _ _ | ClientUpdate _ _ | ClientStatusUpdate _ _ => ApiServer
  | Sleep => NoBackend
  end.

Definition isRead (c : Call) : bool :=
  match c with
  | ClientGet _ _ | ApiReaderGet _ _ => true
  | _ => false
  end.

Definition isWrite (c : Call) : bool :=
  match c with
  | ClientCreate _ _ | ClientUpdate _ _ | ClientStatusUpdate _ _ => true
  | _ => false
  end.

Definition isClientGet (c : Call) : bool :=
  match c with ClientGet _ _ => true | _ => false end.

Definition isApiReaderGet (c : Call) : bool :=
  match c with ApiReaderGet _ _ => true | _ => false end.

Definition isClientCreate (c : Call) : bool :=
  match c with ClientCreate _ _ => true | _ => false end.

Definition isClientUpdate (c : Call) : bool :=
  match c with ClientUpdate _ _ => true | _ => false end.

Definition calls (tr : list Event) : list Call := map fst tr.

Definition countCalls (p : Call -> bool) (tr : list Event) : nat :=
  length (filter p (calls tr)).

(** A method of the wrapper returns the contents of the caller's object as
    the method left them, together with its Go results. *)
Definition Method (A : Type) : Type := Prog Call Reply (Object * A).

(* ===================================================================== *)
(** ** Retry on conflict *)
(* ===================================================================== *)

(** [retry.RetryOnConflict], [retry.OnError] and [retry.DefaultRetry] are
    those of [k8s.io/client-go/util/retry] (client.go:8), which loops with
    [wait.ExponentialBackoff] and, since client-go 0.27, replaces by
    [lastErr] every error for which [wait.Interrupted] holds. *)

(** [wait.ErrWaitTimeout]. *)
Definition ErrWaitTimeout : error := Sentinel WaitTimeout.

(** [wait.Interrupted]: [errors.Is] finds the timeout of the wait package,
    [context.Canceled] or [context.DeadlineExceeded] in the %w chain. *)
Fixpoint Interrupted (e : error) : bool :=
  match e with
  | Sentinel _ => true
  | Errorf _ _ inner => Interrupted inner
  | _ => false
  end.

(** [wait.Backoff].  Only [Steps] decides how often the condition runs; the
    durations slept are not modelled.  [retry.DefaultRetry] has no [Cap], so
    [Backoff.Step] only decrements [Steps]. *)
Record Backoff : Type := mkBackoff { Steps : nat }.

Definition DefaultRetry : Backoff := mkBackoff 5.

(** [wait.ExponentialBackoff(backoff, condition)]: the condition's own
    error, nil when the condition reported done, or [ErrWaitTimeout] when
    the steps are used up.  The condition is a Go closure; the variables it
    captures are threaded as the state [s]. *)
Fixpoint ExponentialBackoff {S : Type} (steps : nat)
  (condition : S -> Prog Call Reply (bool * option error * S)) (s : S)
  : Prog Call Reply (option error * S) :=
  match steps with
  | O => Ret (Some ErrWaitTimeout, s)
  | Datatypes.S n =>
      bind (condition s) (fun '(ok, e, s') =>
        match e, ok with
        | Some _, _ => Ret (e, s')
        | None, true => Ret (None, s')
        | None, false =>
            match n with
            | O => Ret (Some ErrWaitTimeout, s')
            | Datatypes.S _ => Do Sleep (fun _ => ExponentialBackoff n condition s')
            end
        end)
  end.

(** The condition that [retry.OnError] hands to [ExponentialBackoff].  The
    captured state is the caller's object (reached through the pointer the
    closure [fn] holds) and [lastErr]. *)
Definition onErrorCondition (retriable : error -> bool)
  (fn : Object -> Method (option error)) (s : Object * option error)
  : Prog Call Reply (bool * option error * (Object * option error)) :=
  let '(o, lastErr) := s in
  bind (fn o) (fun '(o', e) =>
    match e with
    | None => Ret (true, None, (o', lastErr))
    | Some e' =>
        if retriable e'
        then Ret (false, None, (o', Some e'))
        else Ret (false, Some e', (o', lastErr))
    end).

(** [retry.OnError] from a given [lastErr]: an error of the backoff for
    which [wait.Interrupted] holds, its own timeout or an error of the
    closure, is replaced by [lastErr]. *)
Definition onErrorFrom (steps : nat) (retriable : error -> bool)
  (fn : Object -> Method (option error)) (s : Object * option error)
  : Method (option error) :=
  bind (ExponentialBackoff steps (onErrorCondition retriable fn) s)
       (fun '(e, (o, lastErr)) =>
          match e with
          | Some e' => if Interrupted e' then Ret (o, lastErr) else Ret (o, e)
          | None => Ret (o, None)
          end).

Definition OnError (backoff : Backoff) (retriable : error -> bool)
  (fn : Object -> Method (option error)) (obj : Object)
  : Method (option error) :=
  onErrorFrom (Steps backoff) retriable fn (obj, None).

Definition RetryOnConflict (backoff : Backoff)
  (fn : Object -> Method (option error)) (obj : Object)
  : Method (option error) :=
  OnError backoff IsConflict fn obj.

Definition fetchFormat := "failed to fetch latest %q for update: %w".
Definition updateFormat := "failed to update %q resource: %w".

(** The two retrying methods differ only in the write they submit. *)
Inductive WriteKind : Type := FullUpdate | StatusSubresource.

Definition submitCall (wk : WriteKind) (opts : list string) (o : Object)
  : Call :=
  match wk with
  | FullUpdate => ClientUpdate o opts
  | StatusSubresource => ClientStatusUpdate o opts
  end.

(** The closure passed to [retry.RetryOnConflict] at client.go:149-158
    ([FullUpdate]) and 170-179 ([StatusSubresource]); [o] is the caller's
    object as it is when the attempt starts. *)
Definition retryAttempt (wk : WriteKind) (opts : list string)
  (key : ObjectKey) (o : Object) : Method (option error) :=
  let current := zeroObject (objKind o) in
  Do (ClientGet key current) (fun r =>
    match err r with
    | Some e => Ret (o, Some (Errorf fetchFormat [key] e))
    | None =>
        let o1 := SetResourceVersion (GetResourceVersion (after r)) o in
        Do (submitCall wk opts o1) (fun r2 =>
          match err r2 with
          | Some e => Ret (after r2, Some (Errorf updateFormat [key] e))
          | None => Ret (after r2, None)
          end)
    end).

Definition keyOf (obj : Object) : ObjectKey :=
  mkKey (GetNamespace obj) (GetName obj).

(* ===================================================================== *)
(** ** The methods of [customCtrlClientImpl] *)
(* ===================================================================== *)

Module CustomCtrlClient.

(** client.go:111-119 *)
Definition Get (key : ObjectKey) (obj : Object) : Method (option error) :=
  Do (ClientGet key obj) (fun r =>
    match err r with
    | Some e =>
        if IsNotFound e
        then Do (ApiReaderGet key (after r)) (fun r2 => Ret (after r2, err r2))
        else Ret (after r, Some e)
    | None => Ret (after r, None)
    end).

(** client.go:127-131 *)
Definition Create (obj : Object) (opts : list string) : Method (option error) :=
  Do (ClientCreate obj opts) (fun r => Ret (after r, err r)).

(** client.go:139-143 *)
Definition Update (obj : Object) (opts : list string) : Method (option error) :=
  Do (ClientUpdate obj opts) (fun r => Ret (after r, err r)).

(** client.go:186-190 *)
Definition StatusUpdate (obj : Object) (opts : list string)
  : Method (option error) :=
  Do (ClientStatusUpdate obj opts) (fun r => Ret (after r, err r)).

(** client.go:198-206 *)
Definition Exists (key : ObjectKey) (obj : Object)
  : Method (bool * option error) :=
  Do (ClientGet key obj) (fun r =>
    match err r with
    | Some e =>
        if IsNotFound e
        then Ret (after r, (false, None))
        else Ret (after r, (false, Some e))
    | None => Ret (after r, (true, None))
    end).

(** client.go:209-215 *)
Definition CreateOrUpdateObject (obj : Object) : Method (option error) :=
  bind (Create obj []) (fun '(o, e) =>
    match e with
    | Some e' => if IsAlreadyExists e' then Update o [] else Ret (o, e)
    | None => Ret (o, e)
    end).


(** client.go:145-164 *)
Definition UpdateWithRetry (obj : Object) (opts : list string)
  : Method (option error) :=
  let key := mkKey (GetNamespace obj) (GetName obj) in
  RetryOnConflict DefaultRetry
    (retryAttempt FullUpdate opts key) obj.

(** client.go:166-184 *)
Definition StatusUpdateWithRetry (obj : Object) (opts : list string)
  : Method (option error) :=
  let key := mkKey (GetNamespace obj) (GetName obj) in
  RetryOnConflict DefaultRetry
    (retryAttempt StatusSubresource opts key) obj.

End CustomCtrlClient.

(* ===================================================================== *)
(** ** The resource tables *)
(* ===================================================================== *)

(** client.go:35-48 *)
Definition cacheResources : list Kind :=
  [ Role; RoleBinding; ClusterRole; ClusterRoleBinding; CSIDriver;
    ServiceAccount; Service; ConfigMap; Deployment; DaemonSet; StatefulSet;
    ValidatingWebhookConfiguration ].

(** client.go:50-56 *)
Definition cacheResourceWithoutReqSelectors : list Kind :=
  [ ZeroTrustWorkloadIdentityManager; SpireAgent; SpiffeCSIDriver;
    SpireServer; SpireOIDCDiscoveryProvider ].

(** client.go:58-76 *)
Definition informerResources : list Kind :=
  [ ServiceAccount; Service; Role; RoleBinding; ClusterRole;
    ClusterRoleBinding; CSIDriver; ConfigMap; Deployment; DaemonSet;
    StatefulSet; ValidatingWebhookConfiguration;
    ZeroTrustWorkloadIdentityManager; SpireAgent; SpiffeCSIDriver;
    SpireServer; SpireOIDCDiscoveryProvider ].

(* ===================================================================== *)
(** ** Building the client *)
(* ===================================================================== *)

(** [selection.Equals]. *)
Definition selection_Equals : string := "=".

(** [labels.Requirement]. *)
Record Requirement : Type := mkRequirement {
  reqKey : string;
  reqOperator : string;
  reqValues : list string
}.

(** [labels.Selector]: the requirements added to [labels.NewSelector()]. *)
Definition Selector : Type := list Requirement.

(** [cache.ByObject]; only [Label] is ever set, nil when absent. *)
Record ByObject : Type := mkByObject { Label : option Selector }.

(** [map[client.Object]cache.ByObject].  Every key of the source is a
    distinct pointer, one per table entry; here the key is the dynamic type
    the pointer has, and [mapStore] is the map assignment. *)
Definition ObjectMap : Type := list (Kind * ByObject).

Definition mapStore (k : Kind) (v : ByObject) (m : ObjectMap) : ObjectMap :=
  (k, v) :: filter (fun kv => negb (Kind_eqb (fst kv) k)) m.

Fixpoint mapLoad (k : Kind) (m : ObjectMap) : option ByObject :=
  match m with
  | [] => None
  | (k', v) :: rest => if Kind_eqb k' k then Some v else mapLoad k rest
  end.

(** [cache.Options] as set at client.go:232-238; the HTTP client, scheme and
    REST mapper are taken from the manager unchanged. *)
Record CacheOptions : Type := mkCacheOptions {
  optByObject : ObjectMap;
  ReaderFailOnMissingInformer : bool
}.

(** [client.Options] as set at client.go:254-261: [Cache.Reader] is the
    cache made from these cache options. *)
Record ClientOptions : Type := mkClientOptions {
  CacheReader : CacheOptions
}.

(** The calls [BuildCustomClient] makes on the libraries and the manager;
    each is answered with its error result. *)
Inductive BuildCall : Type :=
| NewRequirement (key : string) (op : string) (vals : list string)
| CacheNew (opts : CacheOptions)
| GetInformer (resource : Kind)
| MgrAdd
| ClientNew (opts : ClientOptions).

Abbreviation BuildEvent := (BuildCall * option error)%type.

(** A Go result pair (value, error). *)
Inductive Result (A : Type) : Type :=
| Ok (a : A)
| Failed (e : error).

Arguments Ok {A} a.
Arguments Failed {A} e.

Definition isOk {A} (r : Result A) : bool :=
  match r with Ok _ => true | Failed _ => false end.

(** The client returned by [client.New]. *)
Record BuiltClient : Type := mkBuiltClient { builtWith : ClientOptions }.

(** [m.GetAPIReader()]. *)
Inductive APIReader : Type := ManagerAPIReader.

(** client.go:79-82 *)
Record customCtrlClientImpl : Type := mkImpl {
  Client : BuiltClient;
  apiReader : APIReader
}.

Definition buildFormat := "failed to build custom client: %w".

(** The loop at client.go:243-247. *)
Fixpoint getInformers (resources : list Kind)
  : Prog BuildCall (option error) (option error) :=
  match resources with
  | [] => Ret None
  | resource :: rest =>
      Do (GetInformer resource) (fun e =>
        match e with
        | Some e' => Ret (Some e')
        | None => getInformers rest
        end)
  end.

Section Build.

(** [utils.AppManagedByLabelKey] and [utils.AppManagedByLabelValue]: the
    package that declares them is not part of the sources at hand, so the
    two constants are parameters. *)
Variable AppManagedByLabelKey : string.
Variable AppManagedByLabelValue : string.

(** client.go:218 and 222 *)
Definition spireServerManagedResourceAppManagedReq : Requirement :=
  mkRequirement AppManagedByLabelKey selection_Equals [AppManagedByLabelValue].

Definition managedResourceLabelReqSelector : Selector :=
  [spireServerManagedResourceAppManagedReq].

(** client.go:223-231 *)
Definition customCacheObjects : ObjectMap :=
  let m0 : ObjectMap := [] in
  let m1 :=
    fold_left
      (fun m resource =>
         mapStore resource (mkByObject (Some managedResourceLabelReqSelector)) m)
      cacheResources m0 in
  fold_left
    (fun m resource => mapStore resource (mkByObject None) m)
    cacheResourceWithoutReqSelectors m1.

(** client.go:232-238 *)
Definition customCacheOpts : CacheOptions :=
  mkCacheOptions customCacheObjects true.

(** client.go:217-266 *)
Definition BuildCustomClient
  : Prog BuildCall (option error) (Result BuiltClient) :=
  Do (NewRequirement AppManagedByLabelKey selection_Equals
                     [AppManagedByLabelValue]) (fun e =>
  match e with
  | Some e' => Ret (Failed e')
  | None =>
  Do (CacheNew customCacheOpts) (fun e =>
  match e with
  | Some e' => Ret (Failed e')
  | None =>
  bind (getInformers informerResources) (fun e =>
  match e with
  | Some e' => Ret (Failed e')
  | None =>
  Do MgrAdd (fun e =>
  match e with
  | Some e' => Ret (Failed e')
  | None =>
  Do (ClientNew (mkClientOptions customCacheOpts)) (fun e =>
  match e with
  | Some e' => Ret (Failed e')
  | None => Ret (Ok (mkBuiltClient (mkClientOptions customCacheOpts)))
  end)
  end)
  end)
  end)
  end).

(** client.go:100-109 *)
Definition NewCustomClient
  : Prog BuildCall (option error) (Result customCtrlClientImpl) :=
  bind BuildCustomClient (fun r =>
    match r with
    | Failed e => Ret (Failed (Errorf buildFormat [] e))
    | Ok c => Ret (Ok (mkImpl c ManagerAPIReader))
    end).

End Build.

(** The answers that establish the informers of [resources], in order. *)
Definition allEstablished (resources : list Kind) : list BuildEvent :=
  map (fun k => (GetInformer k, None)) resources.

(** The runs of [BuildCustomClient], one rule per return statement. *)
Inductive BuildRun (key value : string)
  : list BuildEvent -> Result BuiltClient -> Prop :=
| BR_requirement e :
    BuildRun key value
      [(NewRequirement key selection_Equals [value], Some e)]
      (Failed e)
| BR_cache e :
    BuildRun key value
      [(NewRequirement key selection_Equals [value], None);
       (CacheNew (customCacheOpts key value), Some e)]
      (Failed e)
| BR_informer before k later e :
    informerResources = before ++ k :: later ->
    BuildRun key value
      ((NewRequirement key selection_Equals [value], None)
       :: (CacheNew (customCacheOpts key value), None)
       :: allEstablished before ++ [(GetInformer k, Some e)])
      (Failed e)
| BR_add e :
    BuildRun key value
      ((NewRequirement key selection_Equals [value], None)
       :: (CacheNew (customCacheOpts key value), None)
       :: allEstablished informerResources ++ [(MgrAdd, Some e)])
      (Failed e)
| BR_client e :
    BuildRun key value
      ((NewRequirement key selection_Equals [value], None)
       :: (CacheNew (customCacheOpts key value), None)
       :: allEstablished informerResources
       ++ [(MgrAdd, None);
           (ClientNew (mkClientOptions (customCacheOpts key value)), Some e)])
      (Failed e)
| BR_built :
    BuildRun key value
      ((NewRequirement key selection_Equals [value], None)
       :: (CacheNew (customCacheOpts key value), None)
       :: allEstablished informerResources
       ++ [(MgrAdd, None);
           (ClientNew (mkClientOptions (customCacheOpts key value)), None)])
      (Ok (mkBuiltClient (mkClientOptions (customCacheOpts key value)))).

(** The informer of [k] was asked for and established. *)
Definition established (k : Kind) (tr : list BuildEvent) : Prop :=
  In (GetInformer k, None) tr.

(** Some informer was asked for and could not be established. *)
Definition someInformerFailed (tr : list BuildEvent) : Prop :=
  exists k e, In (GetInformer k, Some e) tr.

(* ===================================================================== *)
(** ** Reading a trace *)
(* ===================================================================== *)

(** The object a call is handed a pointer to. *)
Definition callObject (c : Call) : Object :=
  match c with
  | ClientGet _ o | ApiReaderGet _ o => o
  | ClientCreate o _ | ClientUpdate o _ | ClientStatusUpdate o _ => o
  | Sleep => zeroObject (OtherKind "")
  end.

(** The contents of the caller's object after the events [tr] of a retrying
    update that started from [o]: there the caller's pointer is handed to
    the write calls only, each read being given a new object. *)
Fixpoint callerObject (o : Object) (tr : list Event) : Object :=
  match tr with
  | [] => o
  | (c, r) :: rest =>
      if isWrite c then callerObject (after r) rest else callerObject o rest
  end.

(** The number of attempts begun in [tr]: each begins with one
    [c.Client.Get]. *)
Definition attemptsIn (tr : list Event) : nat := countCalls isClientGet tr.

(** Either retrying method, by the write it submits. *)
Definition retryingUpdate (wk : WriteKind) (obj : Object)
  (opts : list string) : Method (option error) :=
  match wk with
  | FullUpdate => CustomCtrlClient.UpdateWithRetry obj opts
  | StatusSubresource => CustomCtrlClient.StatusUpdateWithRetry obj opts
  end.

(** Every read of a trace is answered by the API server. *)
Definition readsBypassCache (tr : list Event) : Prop :=
  Forall (fun ev => isRead (fst ev) = true -> servedBy (fst ev) = ApiServer)
         tr.

(** Every read of a trace is answered by the informer cache. *)
Definition readsFromCache (tr : list Event) : Prop :=
  Forall (fun ev => isRead (fst ev) = true ->
                    servedBy (fst ev) = InformerCache) tr.

(** What the reads of the embedded client answer.  The client reads typed
    objects from the informer cache (client.go:254-261), and
    [BuildCustomClient] sets [ReaderFailOnMissingInformer] (client.go:237):
    a read is answered from the informer's store, or fails because the kind
    has no informer, the cache has not started or the store has no such
    object; it neither waits on the caller's context nor talks to the API
    server.  Its errors are thus neither classified as a conflict nor
    errors for which [wait.Interrupted] holds. *)
Definition informerCacheReads {W : Type} (h : Call -> W -> Reply * W)
  : Prop :=
  forall key into w e,
    err (fst (h (ClientGet key into) w)) = Some e ->
    IsConflict e = false /\ Interrupted e = false.

(* ===================================================================== *)
(** ** The runs of a retrying update *)
(* ===================================================================== *)

Section RetryRuns.

Variable W : Type.
Variable h : Call -> W -> Reply * W.
Variable wk : WriteKind.
Variable opts : list string.
Variable key : ObjectKey.

(** The error a failed call [c] of an attempt makes the closure return. *)
Definition wrapFor (c : Call) (e : error) : error :=
  Errorf (if isRead c then fetchFormat else updateFormat) [key] e.

(** What the loop returns when an attempt ends with the error [e] that is
    not a conflict, wrapped by the closure with [format]: [lastErr] when
    [wait.Interrupted] holds for it, the wrapped error otherwise. *)
Definition abortResult (last : option error) (format : string) (e : error)
  : option error :=
  if Interrupted e then last else Some (Errorf format [key] e).

(** [RetryRun n o last w tr o' res w']: with [n] steps left, the caller's
    object holding [o], [lastErr] being [last] and the world being [w], the
    loop makes the calls [tr], and ends with the caller's object holding
    [o'], the result [res] and the world [w'].  One rule per path through
    an attempt and the loop. *)
Inductive RetryRun
  : nat -> Object -> option error -> W -> list Event ->
    Object -> option error -> W -> Prop :=
| RR_read_abort n o last w r w1 e :
    h (ClientGet key (zeroObject (objKind o))) w = (r, w1) ->
    err r = Some e ->
    IsConflict e = false ->
    RetryRun (S n) o last w
      [(ClientGet key (zeroObject (objKind o)), r)]
      o (abortResult last fetchFormat e) w1
| RR_read_conflict_last o last w r w1 e :
    h (ClientGet key (zeroObject (objKind o))) w = (r, w1) ->
    err r = Some e ->
    IsConflict e = true ->
    RetryRun 1 o last w
      [(ClientGet key (zeroObject (objKind o)), r)]
      o (Some (Errorf fetchFormat [key] e)) w1
| RR_read_conflict_retry n o last w r w1 e rs w2 tr o' res w3 :
    h (ClientGet key (zeroObject (objKind o))) w = (r, w1) ->
    err r = Some e ->
    IsConflict e = true ->
    h Sleep w1 = (rs, w2) ->
    RetryRun (S n) o (Some (Errorf fetchFormat [key] e)) w2 tr o' res w3 ->
    RetryRun (S (S n)) o last w
      ((ClientGet key (zeroObject (objKind o)), r) :: (Sleep, rs) :: tr)
      o' res w3
| RR_write_ok n o last w r w1 r2 w2 :
    h (ClientGet key (zeroObject (objKind o))) w = (r, w1) ->
    err r = None ->
    h (submitCall wk opts
         (SetResourceVersion (GetResourceVersion (after r)) o)) w1
      = (r2, w2) ->
    err r2 = None ->
    RetryRun (S n) o last w
      [(ClientGet key (zeroObject (objKind o)), r);
       (submitCall wk opts
          (SetResourceVersion (GetResourceVersion (after r)) o), r2)]
      (after r2) None w2
| RR_write_abort n o last w r w1 r2 w2 e :
    h (ClientGet key (zeroObject (objKind o))) w = (r, w1) ->
    err r = None ->
    h (submitCall wk opts
         (SetResourceVersion (GetResourceVersion (after r)) o)) w1
      = (r2, w2) ->
    err r2 = Some e ->
    IsConflict e = false ->
    RetryRun (S n) o last w
      [(ClientGet key (zeroObject (objKind o)), r);
       (submitCall wk opts
          (SetResourceVersion (GetResourceVersion (after r)) o), r2)]
      (after r2) (abortResult last updateFormat e) w2
| RR_write_conflict_last o last w r w1 r2 w2 e :
    h (ClientGet key (zeroObject (objKind o))) w = (r, w1) ->
    err r = None ->
    h (submitCall wk opts
         (SetResourceVersion (GetResourceVersion (after r)) o)) w1
      = (r2, w2) ->
    err r2 = Some e ->
    IsConflict e = true ->
    RetryRun 1 o last w
      [(ClientGet key (zeroObject (objKind o)), r);
       (submitCall wk opts
          (SetResourceVersion (GetResourceVersion (after r)) o), r2)]
      (after r2) (Some (Errorf updateFormat [key] e)) w2
| RR_write_conflict_retry n o last w r w1 r2 w2 e rs w3 tr o' res w4 :
    h (ClientGet key (zeroObject (objKind o))) w = (r, w1) ->
    err r = None ->
    h (submitCall wk opts
         (SetResourceVersion (GetResourceVersion (after r)) o)) w1
      = (r2, w2) ->
    err r2 = Some e ->
    IsConflict e = true ->
    h Sleep w2 = (rs, w3) ->
    RetryRun (S n) (after r2) (Some (Errorf updateFormat [key] e)) w3
      tr o' res w4 ->
    RetryRun (S (S n)) o last w
      ((ClientGet key (zeroObject (objKind o)), r)
       :: (submitCall wk opts
             (SetResourceVersion (GetResourceVersion (after r)) o), r2)
       :: (Sleep, rs) :: tr)
      o' res w4.

(** [lastErr] after the calls [tr], from [last]: the wrapped error of the
    most recent read or write that failed with a conflict. *)
Fixpoint lastErrAfter (last : option error) (tr : list Event)
  : option error :=
  match tr with
  | [] => last
  | (c, r) :: rest =>
      match err r with
      | Some e =>
          if (isRead c || isWrite c) && IsConflict e
          then lastErrAfter (Some (wrapFor c e)) rest
          else lastErrAfter last rest
      | None => lastErrAfter last rest
      end
  end.

End RetryRuns.

(* ===================================================================== *)
(** ** An implementation of the interfaces, for concrete runs *)
(* ===================================================================== *)

(** A small cluster: the objects the API server stores, the objects the
    informer cache has seen so far, and whether the cache catches up while
    the caller sleeps. *)
Record Cluster : Type := mkCluster {
  apiObjects : list Object;
  informerObjects : list Object;
  resyncOnSleep : bool
}.

Definition hasKey (k : Kind) (key : ObjectKey) (o : Object) : bool :=
  Kind_eqb (objKind o) k
  && String.eqb (objNamespace o) (Namespace key)
  && String.eqb (objName o) (Name key).

Definition lookupObject (k : Kind) (key : ObjectKey) (l : list Object)
  : option Object :=
  find (hasKey k key) l.

Definition replaceObject (o : Object) (l : list Object) : list Object :=
  map (fun s => if hasKey (objKind o) (keyOf o) s then o else s) l.

Definition errNotFound : error := StatusError "NotFound" 404 "not found".
Definition errConflict : error :=
  StatusError "Conflict" 409 "the object has been modified".
Definition errAlreadyExists : error :=
  StatusError "AlreadyExists" 409 "already exists".
Definition errForbidden : error := StatusError "Forbidden" 403 "forbidden".

Definition readFrom (l : list Object) (key : ObjectKey) (into : Object)
  : Reply :=
  match lookupObject (objKind into) key l with
  | Some o => mkReply o None
  | None => mkReply into (Some errNotFound)
  end.

Definition storeWrite (status : bool) (o : Object) (w : Cluster)
  : Reply * Cluster :=
  match lookupObject (objKind o) (keyOf o) (apiObjects w) with
  | None => (mkReply o (Some errNotFound), w)
  | Some s =>
      if String.eqb (objResourceVersion o) (objResourceVersion s)
         || String.eqb (objResourceVersion o) ""
      then
        let v := String.append (objResourceVersion s) "+" in
        let o' :=
          if status
          then mkObject (objKind s) (objNamespace s) (objName s) v
                        (objLabels s) (objSpec s) (objStatus o)
          else SetResourceVersion v o in
        (mkReply o' None,
         mkCluster (replaceObject o' (apiObjects w)) (informerObjects w)
                   (resyncOnSleep w))
      else (mkReply o (Some errConflict), w)
  end.

Definition cluster (c : Call) (w : Cluster) : Reply * Cluster :=
  match c with
  | ClientGet key into => (readFrom (informerObjects w) key into, w)
  | ApiReaderGet key into => (readFrom (apiObjects w) key into, w)
  | ClientCreate o _ =>
      match lookupObject (objKind o) (keyOf o) (apiObjects w) with
      | Some _ => (mkReply o (Some errAlreadyExists), w)
      | None =>
          let o' := SetResourceVersion "1" o in
          (mkReply o' None,
           mkCluster (o' :: apiObjects w) (informerObjects w)
                     (resyncOnSleep w))
      end
  | ClientUpdate o _ => storeWrite false o w
  | ClientStatusUpdate o _ => storeWrite true o w
  | Sleep =>
      (mkReply (callObject Sleep) None,
       if resyncOnSleep w
       then mkCluster (apiObjects w) (apiObjects w) true
       else w)
  end.

(** A ConfigMap as a caller holds it and as the cluster may store it. *)
Definition configMap (version data : string) : Object :=
  mkObject ConfigMap "zero-trust" "spire-server" version [] data "".

(** The API server is at version 6 while the informer cache still holds
    version 5. *)
Definition staleCluster (resync : bool) : Cluster :=
  mkCluster [configMap "6" "stored"] [configMap "5" "stored"] resync.

(** The API server has the object, the informer cache has not seen it. *)
Definition laggingCluster : Cluster :=
  mkCluster [configMap "6" "stored"] [] false.

(** Cache and API server agree. *)
Definition syncedCluster : Cluster :=
  mkCluster [configMap "6" "stored"] [configMap "6" "stored"] false.

Definition emptyCluster : Cluster := mkCluster [] [] false.

(** Implementations of the calls of [BuildCustomClient]: every call
    succeeds, or the informer of one kind cannot be established. *)
Definition allSucceed (c : BuildCall) (w : unit) : option error * unit :=
  (None, w).

Definition informerDenied (k : Kind) (c : BuildCall) (w : unit)
  : option error * unit :=
  match c with
  | GetInformer k' =>
      if Kind_eqb k' k then (Some errForbidden, w) else (None, w)
  | _ => (None, w)
  end.

(** The resource version the API server of a cluster stores for the object
    that [o] names. *)
Definition storedVersion (w : Cluster) (o : Object) : option string :=
  option_map objResourceVersion
    (lookupObject (objKind o) (keyOf o) (apiObjects w)).

(** Every write of a trace carries the resource version that the API server
    of [w] stores for its object. *)
Definition writesCarryStoredVersion (w : Cluster) (tr : list Event) : Prop :=
  Forall (fun ev =>
            isWrite (fst ev) = true ->
            Some (objResourceVersion (callObject (fst ev)))
            = storedVersion w (callObject (fst ev))) tr.

(** The small cluster as a caller reaches it whose context is cancelled:
    reads of the informer cache are answered as before, every request to
    the API server fails with [context.Canceled]. *)
Definition errCanceled : error := Sentinel ContextCanceled.

Definition cancelledCluster (c : Call) (w : Cluster) : Reply * Cluster :=
  match c with
  | ClientGet _ _ | Sleep => cluster c w
  | _ => (mkReply (callObject c) (Some errCanceled), w)
  end.

(* ===================================================================== *)
(** ** Further readings of a trace *)
(* ===================================================================== *)

Definition isSleep (c : Call) : bool :=
  match c with Sleep => true | _ => false end.

(** The calls a retrying update may make: the read of the key into a new
    object, the write of its own kind with the caller's options, the sleep
    of the backoff. *)
Definition retryCall (wk : WriteKind) (opts : list string) (key : ObjectKey)
  (c : Call) : Prop :=
  (exists k, c = ClientGet key (zeroObject k))
  \/ (exists o, c = submitCall wk opts o)
  \/ c = Sleep.

(** The calls of [BuildCustomClient] in the order of the source, when none
    of them fails (client.go:218, 239, 243-247, 249, 254). *)
Definition buildSequence (key value : string) : list BuildCall :=
  NewRequirement key selection_Equals [value]
  :: CacheNew (customCacheOpts key value)
  :: map GetInformer informerResources
  ++ [MgrAdd; ClientNew (mkClientOptions (customCacheOpts key value))].

(** What [BuildCustomClient] returns when its last call was answered with
    [e]. *)
Definition buildResult (key value : string) (e : option error)
  : Result BuiltClient :=
  match e with
  | Some e' => Failed e'
  | None => Ok (mkBuiltClient (mkClientOptions (customCacheOpts key value)))
  end.

(* ===================================================================== *)
(** * Properties *)
(* ===================================================================== *)

(** ** Running programs *)

Lemma run_bind {C R A B W} (h : C -> W -> R * W) (p : Prog C R A)
  (f : A -> Prog C R B) (w : W) :
  run h (bind p f) w =
  let '(a, w1, t1) := run h p w in
  let '(b, w2, t2) := run h (f a) w1 in
  (b, w2, t1 ++ t2).
Proof.
  revert w. induction p as [a | c k IH]; intros w; simpl.
  - destruct (run h (f a) w) as [[b w2] t2]. reflexivity.
  - destruct (h c w) as [r w1]. rewrite IH.
    destruct (run h (k r) w1) as [[a w2] t1].
    destruct (run h (f a) w2) as [[b w3] t2]. reflexivity.
Qed.

(** ** Error classification under wrapping *)

Lemma IsConflict_Errorf (f : string) (ks : list ObjectKey) (e : error) :
  IsConflict (Errorf f ks e) = IsConflict e.
Proof. reflexivity. Qed.

Lemma IsNotFound_Errorf (f : string) (ks : list ObjectKey) (e : error) :
  IsNotFound (Errorf f ks e) = IsNotFound e.
Proof. reflexivity. Qed.

Lemma IsAlreadyExists_Errorf (f : string) (ks : list ObjectKey) (e : error) :
  IsAlreadyExists (Errorf f ks e) = IsAlreadyExists e.
Proof. reflexivity. Qed.

(** An error classified as a conflict is not one for which
    [wait.Interrupted] holds: the %w chain ends in one error only. *)
Lemma IsConflict_not_Interrupted (e : error) :
  IsConflict e = true -> Interrupted e = false.
Proof.
  induction e as [reason code msg | msg | s | f ks inner IH]; simpl; auto;
    intros H; vm_compute in H; discriminate.
Qed.

Lemma Interrupted_Errorf (f : string) (ks : list ObjectKey) (e : error) :
  Interrupted (Errorf f ks e) = Interrupted e.
Proof. reflexivity. Qed.

(** ** Get, Exists and CreateOrUpdateObject *)

(** C1. [Get] first reads through the embedded client (the informer cache).
    When that read fails with a NotFound error, [Get] reads once more
    through [apiReader], into the same object, and returns whatever that
    second read returns: so the object, when the API server has it.  When
    the first read fails with any other error, that error is returned and
    [apiReader] is not called; when it succeeds, its object is returned. *)
Theorem Get_falls_back_on_NotFound_only
  (W : Type) (h : Call -> W -> Reply * W) (w : W)
  (key : ObjectKey) (obj : Object) :
  let first := h (ClientGet key obj) w in
  let r1 := fst first in
  let second := h (ApiReaderGet key (after r1)) (snd first) in
  let r2 := fst second in
  let out := run h (CustomCtrlClient.Get key obj) w in
  match err r1 with
  | Some e =>
      if IsNotFound e
      then out = ((after r2, err r2), snd second,
                  [(ClientGet key obj, r1);
                   (ApiReaderGet key (after r1), r2)])
      else out = ((after r1, Some e), snd first, [(ClientGet key obj, r1)])
           /\ countCalls isApiReaderGet (traceOf out) = 0
  | None => out = ((after r1, None), snd first, [(ClientGet key obj, r1)])
  end.
Proof.
  cbv zeta. unfold CustomCtrlClient.Get. simpl run.
  destruct (h (ClientGet key obj) w) as [r1 w1]; simpl fst; simpl snd.
  destruct (err r1) as [e |] eqn:E1; [destruct (IsNotFound e) eqn:NF |].
  - simpl. destruct (h (ApiReaderGet key (after r1)) w1) as [r2 w2].
    reflexivity.
  - split; reflexivity.
  - reflexivity.
Qed.

(** C3. [Exists] makes one read through the embedded client and classifies
    its outcome: (false, nil) when the read fails with NotFound,
    (false, err) when it fails with another error, (true, nil) when it
    succeeds.  The error it returns is never a NotFound error. *)
Theorem Exists_classifies_the_read
  (W : Type) (h : Call -> W -> Reply * W) (w : W)
  (key : ObjectKey) (obj : Object) :
  let first := h (ClientGet key obj) w in
  let r1 := fst first in
  let out := run h (CustomCtrlClient.Exists key obj) w in
  traceOf out = [(ClientGet key obj, r1)]
  /\ snd (valueOf out) =
       match err r1 with
       | None => (true, None)
       | Some e => if IsNotFound e then (false, None) else (false, Some e)
       end
  /\ match snd (snd (valueOf out)) with
     | Some e => IsNotFound e = false
     | None => True
     end.
Proof.
  cbv zeta. unfold CustomCtrlClient.Exists. simpl run.
  destruct (h (ClientGet key obj) w) as [r1 w1]; simpl fst.
  destruct (err r1) as [e |] eqn:E1; [destruct (IsNotFound e) eqn:NF |];
    simpl; rewrite ?E1, ?NF; auto.
Qed.

(** C7. [CreateOrUpdateObject] calls Create once, with the caller's object.
    When Create fails with AlreadyExists it calls Update once, handing it
    the caller's object as the Create call left it, with no read and no
    change of its resource version in between, and returns the result of
    that Update.  In every other case the result of Create is returned and
    Update is not called.  Create is never called a second time. *)
Theorem CreateOrUpdateObject_creates_once_then_updates
  (W : Type) (h : Call -> W -> Reply * W) (w : W) (obj : Object) :
  let first := h (ClientCreate obj []) w in
  let r1 := fst first in
  let second := h (ClientUpdate (after r1) []) (snd first) in
  let r2 := fst second in
  let out := run h (CustomCtrlClient.CreateOrUpdateObject obj) w in
  countCalls isClientCreate (traceOf out) = 1
  /\ countCalls isClientUpdate (traceOf out) <= 1
  /\ match err r1 with
     | Some e =>
         if IsAlreadyExists e
         then out = ((after r2, err r2), snd second,
                     [(ClientCreate obj [], r1);
                      (ClientUpdate (after r1) [], r2)])
         else out = ((after r1, Some e), snd first,
                     [(ClientCreate obj [], r1)])
     | None => out = ((after r1, None), snd first,
                      [(ClientCreate obj [], r1)])
     end.
Proof.
  cbv zeta. unfold CustomCtrlClient.CreateOrUpdateObject,
    CustomCtrlClient.Create, CustomCtrlClient.Update. simpl run.
  destruct (h (ClientCreate obj []) w) as [r1 w1]; simpl fst; simpl snd.
  destruct (err r1) as [e |] eqn:E1; [destruct (IsAlreadyExists e) eqn:AE |].
  - simpl. destruct (h (ClientUpdate (after r1) []) w1) as [r2 w2].
    repeat split. unfold countCalls. simpl. lia.
  - repeat split. unfold countCalls. simpl. lia.
  - repeat split. unfold countCalls. simpl. lia.
Qed.

(** *** The three methods on the small cluster *)

(** The API server has the ConfigMap, the cache has not seen it yet: [Get]
    returns it from the second read. *)
Example Get_finds_what_the_cache_missed :
  run cluster
      (CustomCtrlClient.Get (mkKey "zero-trust" "spire-server")
         (zeroObject ConfigMap))
      laggingCluster
  = ((configMap "6" "stored", None), laggingCluster,
     [(ClientGet (mkKey "zero-trust" "spire-server") (zeroObject ConfigMap),
       mkReply (zeroObject ConfigMap) (Some errNotFound));
      (ApiReaderGet (mkKey "zero-trust" "spire-server") (zeroObject ConfigMap),
       mkReply (configMap "6" "stored") None)]).
Proof. reflexivity. Qed.

(** In the same cluster [Exists] answers from the cache alone. *)
Example Exists_answers_from_the_cache :
  valueOf (run cluster
             (CustomCtrlClient.Exists (mkKey "zero-trust" "spire-server")
                (zeroObject ConfigMap))
             laggingCluster)
  = (zeroObject ConfigMap, (false, None)).
Proof. reflexivity. Qed.

(** On an empty cluster the object is created; where it exists it is
    updated with the caller's payload. *)
Example CreateOrUpdateObject_creates :
  calls (traceOf (run cluster
                    (CustomCtrlClient.CreateOrUpdateObject (configMap "" "new"))
                    emptyCluster))
  = [ClientCreate (configMap "" "new") []].
Proof. reflexivity. Qed.

Example CreateOrUpdateObject_updates :
  let out :=
    run cluster (CustomCtrlClient.CreateOrUpdateObject (configMap "" "new"))
        syncedCluster in
  calls (traceOf out)
  = [ClientCreate (configMap "" "new") []; ClientUpdate (configMap "" "new") []]
  /\ apiObjects (worldOf out) = [configMap "6+" "new"]
  /\ snd (valueOf out) = None.
Proof. repeat split. Qed.

(** ** Objects that differ in the resource version only *)

Lemma sameButResourceVersion_refl (o : Object) : sameButResourceVersion o o.
Proof. unfold sameButResourceVersion. auto 7. Qed.

Lemma sameButResourceVersion_trans (a b c : Object) :
  sameButResourceVersion a b -> sameButResourceVersion b c ->
  sameButResourceVersion a c.
Proof.
  unfold sameButResourceVersion. intuition congruence.
Qed.

Lemma sameButResourceVersion_Set (v : string) (o : Object) :
  sameButResourceVersion o (SetResourceVersion v o).
Proof. unfold sameButResourceVersion. simpl. auto 7. Qed.

(** ** The retry loop *)

Section RetryLoop.

Variable W : Type.
Variable h : Call -> W -> Reply * W.
Variable wk : WriteKind.
Variable opts : list string.
Variable key : ObjectKey.

Lemma submitCall_isWrite (o : Object) : isWrite (submitCall wk opts o) = true.
Proof. destruct wk; reflexivity. Qed.

Lemma submitCall_isRead (o : Object) : isRead (submitCall wk opts o) = false.
Proof. destruct wk; reflexivity. Qed.

Lemma submitCall_isClientGet (o : Object) :
  isClientGet (submitCall wk opts o) = false.
Proof. destruct wk; reflexivity. Qed.

Lemma submitCall_callObject (o : Object) :
  callObject (submitCall wk opts o) = o.
Proof. destruct wk; reflexivity. Qed.

(** One attempt: a read into a new object, then, if the read succeeded, the
    write of the caller's object stamped with the version just read. *)
Lemma retryAttempt_run (o : Object) (w : W) :
  run h (retryAttempt wk opts key o) w =
  let '(r, w1) := h (ClientGet key (zeroObject (objKind o))) w in
  match err r with
  | Some e =>
      ((o, Some (Errorf fetchFormat [key] e)), w1,
       [(ClientGet key (zeroObject (objKind o)), r)])
  | None =>
      let o1 := SetResourceVersion (GetResourceVersion (after r)) o in
      let '(r2, w2) := h (submitCall wk opts o1) w1 in
      ((after r2,
        match err r2 with
        | Some e => Some (Errorf updateFormat [key] e)
        | None => None
        end), w2,
       [(ClientGet key (zeroObject (objKind o)), r);
        (submitCall wk opts o1, r2)])
  end.
Proof.
  unfold retryAttempt. simpl run.
  destruct (h (ClientGet key (zeroObject (objKind o))) w) as [r w1].
  destruct (err r) as [e |]; simpl; [reflexivity |].
  destruct (h _ w1) as [r2 w2]. destruct (err r2); reflexivity.
Qed.

Lemma onErrorFrom_O (retriable : error -> bool)
  (fn : Object -> Method (option error)) (s : Object * option error) (w : W) :
  run h (onErrorFrom 0 retriable fn s) w = (s, w, []).
Proof. destruct s as [o last]. reflexivity. Qed.

Lemma ExponentialBackoff_S {S : Type} (n : nat)
  (condition : S -> Prog Call Reply (bool * option error * S)) (s : S) :
  ExponentialBackoff (Datatypes.S n) condition s =
  bind (condition s) (fun '(ok, e, s') =>
    match e, ok with
    | Some _, _ => Ret (e, s')
    | None, true => Ret (None, s')
    | None, false =>
        match n with
        | O => Ret (Some ErrWaitTimeout, s')
        | Datatypes.S _ => Do Sleep (fun _ => ExponentialBackoff n condition s')
        end
    end).
Proof. reflexivity. Qed.

Lemma onErrorCondition_eq (retriable : error -> bool)
  (fn : Object -> Method (option error)) (o : Object) (last : option error) :
  onErrorCondition retriable fn (o, last) =
  bind (fn o) (fun '(o', e) =>
    match e with
    | None => Ret (true, None, (o', last))
    | Some e' =>
        if retriable e'
        then Ret (false, None, (o', Some e'))
        else Ret (false, Some e', (o', last))
    end).
Proof. reflexivity. Qed.

(** One turn of the loop of [retry.OnError]. *)
Lemma onErrorFrom_S (n : nat) (retriable : error -> bool)
  (fn : Object -> Method (option error)) (o : Object) (last : option error)
  (w : W) :
  run h (onErrorFrom (S n) retriable fn (o, last)) w =
  let '(o', e, w1, t1) := run h (fn o) w in
  match e with
  | None => ((o', None), w1, t1)
  | Some e' =>
      if retriable e'
      then match n with
           | O => ((o', Some e'), w1, t1)
           | S _ =>
               let '(rs, w2) := h Sleep w1 in
               let '(res, w3, t2) :=
                 run h (onErrorFrom n retriable fn (o', Some e')) w2 in
               (res, w3, t1 ++ (Sleep, rs) :: t2)
           end
      else ((o', if Interrupted e' then last else Some e'), w1, t1)
  end.
Proof.
  unfold onErrorFrom at 1.
  rewrite ExponentialBackoff_S, onErrorCondition_eq, !run_bind.
  destruct (run h (fn o) w) as [[[o' e] w1] t1].
  destruct e as [e' |]; [destruct (retriable e') eqn:Rt |]; cbn [run].
  - destruct n as [| m]; cbn [run].
    + change (Interrupted ErrWaitTimeout) with true. cbn [run].
      rewrite !app_nil_r. reflexivity.
    + destruct (h Sleep w1) as [rs w2].
      unfold onErrorFrom. rewrite run_bind.
      destruct (run h (ExponentialBackoff (S m)
                         (onErrorCondition retriable fn) (o', Some e')) w2)
        as [[[out [o2 l2]] w3] t2].
      destruct out as [e2 |]; [destruct (Interrupted e2) |];
        cbn [run]; rewrite ?app_nil_r; reflexivity.
  - destruct (Interrupted e'); cbn [run]; rewrite !app_nil_r; reflexivity.
  - rewrite !app_nil_r. reflexivity.
Qed.

(** Every run of the loop with at least one step follows the rules of
    [RetryRun]. *)
Lemma onErrorFrom_RetryRun (n : nat) :
  forall (o : Object) (last : option error) (w : W),
  let out :=
    run h (onErrorFrom (S n) IsConflict (retryAttempt wk opts key) (o, last)) w
  in
  RetryRun h wk opts key (S n) o last w
    (traceOf out) (fst (valueOf out)) (snd (valueOf out)) (worldOf out).
Proof.
  induction n as [| m IH]; intros o last w; cbv zeta;
    rewrite onErrorFrom_S, retryAttempt_run;
    destruct (h (ClientGet key (zeroObject (objKind o))) w) as [r w1] eqn:Hr;
    destruct (err r) as [e |] eqn:Er.
  - rewrite IsConflict_Errorf. destruct (IsConflict e) eqn:Ce; simpl.
    + eapply RR_read_conflict_last; eauto.
    + eapply RR_read_abort; eauto.
  - cbv zeta.
    destruct (h (submitCall wk opts _) w1) as [r2 w2] eqn:Hw.
    destruct (err r2) as [e2 |] eqn:Er2.
    + rewrite IsConflict_Errorf. destruct (IsConflict e2) eqn:Ce; simpl.
      * eapply RR_write_conflict_last; eauto.
      * eapply RR_write_abort; eauto.
    + simpl. eapply RR_write_ok; eauto.
  - rewrite IsConflict_Errorf. destruct (IsConflict e) eqn:Ce.
    + destruct (h Sleep w1) as [rs w2] eqn:Hs.
      specialize (IH o (Some (Errorf fetchFormat [key] e)) w2).
      cbv zeta in IH.
      destruct (run h (onErrorFrom (S m) _ _ _) w2) as [[[o' res] w3] t2].
      simpl in *. eapply RR_read_conflict_retry; eauto.
    + simpl. eapply RR_read_abort; eauto.
  - cbv zeta.
    destruct (h (submitCall wk opts _) w1) as [r2 w2] eqn:Hw.
    destruct (err r2) as [e2 |] eqn:Er2.
    + rewrite IsConflict_Errorf. destruct (IsConflict e2) eqn:Ce.
      * destruct (h Sleep w2) as [rs w3] eqn:Hs.
        specialize (IH (after r2) (Some (Errorf updateFormat [key] e2)) w3).
        cbv zeta in IH.
        destruct (run h (onErrorFrom (S m) _ _ _) w3) as [[[o' res] w4] t2].
        simpl in *. eapply RR_write_conflict_retry; eauto.
      * simpl. eapply RR_write_abort; eauto.
    + simpl. eapply RR_write_ok; eauto.
Qed.

(** *** Taking a trace apart *)

Lemma cons_eq_app {A : Type} (x : A) (l pre : list A) (y : A) (post : list A) :
  x :: l = pre ++ y :: post ->
  (pre = [] /\ x = y /\ l = post)
  \/ (exists pre', pre = x :: pre' /\ l = pre' ++ y :: post).
Proof.
  destruct pre as [| p pre']; simpl; intros H; injection H as -> H.
  - left. auto.
  - right. exists pre'. auto.
Qed.

Lemma nil_eq_app {A : Type} (pre : list A) (y : A) (post : list A) :
  [] = pre ++ y :: post -> False.
Proof. destruct pre; discriminate. Qed.

Lemma attemptsIn_nil : attemptsIn [] = 0.
Proof. reflexivity. Qed.

Lemma attemptsIn_get (k : ObjectKey) (o : Object) (r : Reply)
  (tr : list Event) :
  attemptsIn ((ClientGet k o, r) :: tr) = S (attemptsIn tr).
Proof. reflexivity. Qed.

Lemma attemptsIn_submit (o : Object) (r : Reply) (tr : list Event) :
  attemptsIn ((submitCall wk opts o, r) :: tr) = attemptsIn tr.
Proof. destruct wk; reflexivity. Qed.

Lemma attemptsIn_sleep (r : Reply) (tr : list Event) :
  attemptsIn ((Sleep, r) :: tr) = attemptsIn tr.
Proof. reflexivity. Qed.

Lemma callerObject_get (k : ObjectKey) (o0 o : Object) (r : Reply)
  (tr : list Event) :
  callerObject o ((ClientGet k o0, r) :: tr) = callerObject o tr.
Proof. reflexivity. Qed.

Lemma callerObject_submit (o0 o : Object) (r : Reply) (tr : list Event) :
  callerObject o ((submitCall wk opts o0, r) :: tr) = callerObject (after r) tr.
Proof. destruct wk; reflexivity. Qed.

Lemma callerObject_sleep (o : Object) (r : Reply) (tr : list Event) :
  callerObject o ((Sleep, r) :: tr) = callerObject o tr.
Proof. reflexivity. Qed.

Create Rewrite HintDb trace.
#[local] Hint Rewrite attemptsIn_nil attemptsIn_get attemptsIn_submit
  attemptsIn_sleep callerObject_get callerObject_submit callerObject_sleep
  submitCall_isWrite submitCall_isRead submitCall_isClientGet : trace.

(** Splits [x :: l = pre ++ ev :: post] by where [ev] falls. *)
Ltac locate H :=
  repeat (
    let Heq := fresh "Heq" in
    let pre' := fresh "pre" in
    apply cons_eq_app in H as [(-> & Heq & <-) | (pre' & -> & H)];
    [ inversion Heq; subst; clear Heq | ]);
  try (apply nil_eq_app in H; contradiction).

(** *** What a run looks like *)

(** After the run the caller's object is as the last write call left it. *)
Lemma RetryRun_final n o last w tr o' res w' :
  RetryRun h wk opts key n o last w tr o' res w' ->
  o' = callerObject o tr.
Proof.
  induction 1; autorewrite with trace; simpl; auto.
Qed.

(** A run makes at least one and at most [n] attempts. *)
Lemma RetryRun_attempts n o last w tr o' res w' :
  RetryRun h wk opts key n o last w tr o' res w' ->
  1 <= attemptsIn tr <= n.
Proof.
  induction 1; autorewrite with trace; lia.
Qed.

(** The direct reader is never called. *)
Lemma RetryRun_no_ApiReaderGet n o last w tr o' res w' :
  RetryRun h wk opts key n o last w tr o' res w' ->
  countCalls isApiReaderGet tr = 0.
Proof.
  unfold countCalls, calls.
  induction 1; simpl; auto; destruct wk; simpl; auto.
Qed.

(** Every read is a [c.Client.Get] of [key] into a new zero object of the
    dynamic type of the caller's object. *)
Lemma RetryRun_read_shape n o last w tr o' res w' :
  RetryRun h wk opts key n o last w tr o' res w' ->
  forall pre c r post,
  tr = pre ++ (c, r) :: post ->
  isRead c = true ->
  c = ClientGet key (zeroObject (objKind (callerObject o pre))).
Proof.
  induction 1; intros pre c0 r0 post Htr Hc; locate Htr;
    autorewrite with trace in *; simpl in *; try discriminate; eauto.
Qed.

(** Every write comes right after a successful read, and submits the
    caller's object with the version of the copy just read. *)
Lemma RetryRun_write_shape n o last w tr o' res w' :
  RetryRun h wk opts key n o last w tr o' res w' ->
  forall pre c r post,
  tr = pre ++ (c, r) :: post ->
  isWrite c = true ->
  exists pre' rg,
    pre = pre' ++ [(ClientGet key (zeroObject (objKind (callerObject o pre'))), rg)]
    /\ err rg = None
    /\ c = submitCall wk opts
             (SetResourceVersion (GetResourceVersion (after rg))
                (callerObject o pre')).
Proof.
  induction 1; intros pre c0 r0 post Htr Hc; locate Htr;
    autorewrite with trace in *; simpl in *; try discriminate.
  - destruct (IHRetryRun _ _ _ _ Htr Hc) as (pre' & rg & -> & Hg & ->).
    exists ((ClientGet key (zeroObject (objKind o)), r) :: (Sleep, rs) :: pre'),
      rg.
    autorewrite with trace. simpl. auto.
  - exists [], r. simpl. auto.
  - exists [], r. simpl. auto.
  - exists [], r. simpl. auto.
  - exists [], r. simpl. auto.
  - destruct (IHRetryRun _ _ _ _ Htr Hc) as (pre' & rg & -> & Hg & ->).
    exists ((ClientGet key (zeroObject (objKind o)), r)
            :: (submitCall wk opts
                  (SetResourceVersion (GetResourceVersion (after r)) o), r2)
            :: (Sleep, rs) :: pre'), rg.
    autorewrite with trace. simpl. auto.
Qed.

(** A read that succeeds is followed by the write of the attempt. *)
Lemma RetryRun_read_ok n o last w tr o' res w' :
  RetryRun h wk opts key n o last w tr o' res w' ->
  forall pre c r post,
  tr = pre ++ (c, r) :: post ->
  isRead c = true ->
  err r = None ->
  exists r2 post',
    post = (submitCall wk opts
              (SetResourceVersion (GetResourceVersion (after r))
                 (callerObject o pre)), r2) :: post'.
Proof.
  induction 1; intros pre c0 r0 post Htr Hc He; locate Htr;
    autorewrite with trace in *; simpl in *; try discriminate;
    try congruence; eauto.
Qed.

Lemma lastErrAfter_get_conflict (last : option error) (k : ObjectKey)
  (o : Object) (r : Reply) (e : error) (tr : list Event) :
  err r = Some e -> IsConflict e = true ->
  lastErrAfter key last ((ClientGet k o, r) :: tr)
  = lastErrAfter key (Some (Errorf fetchFormat [key] e)) tr.
Proof. intros He Hc. simpl. rewrite He, Hc. reflexivity. Qed.

Lemma lastErrAfter_ok (last : option error) (c : Call) (r : Reply)
  (tr : list Event) :
  err r = None ->
  lastErrAfter key last ((c, r) :: tr) = lastErrAfter key last tr.
Proof. intros He. simpl. rewrite He. reflexivity. Qed.

Lemma lastErrAfter_submit_conflict (last : option error) (o : Object)
  (r : Reply) (e : error) (tr : list Event) :
  err r = Some e -> IsConflict e = true ->
  lastErrAfter key last ((submitCall wk opts o, r) :: tr)
  = lastErrAfter key (Some (Errorf updateFormat [key] e)) tr.
Proof.
  intros He Hc. simpl. unfold wrapFor.
  rewrite He, Hc, submitCall_isRead, submitCall_isWrite. reflexivity.
Qed.

Lemma lastErrAfter_sleep (last : option error) (r : Reply)
  (tr : list Event) :
  lastErrAfter key last ((Sleep, r) :: tr) = lastErrAfter key last tr.
Proof. simpl. destruct (err r); reflexivity. Qed.

(** A read error that is not a conflict ends the run: the read is the last
    call, and the run returns the error wrapped with the key, or [lastErr]
    when [wait.Interrupted] holds for the error. *)
Lemma RetryRun_read_abort n o last w tr o' res w' :
  RetryRun h wk opts key n o last w tr o' res w' ->
  forall pre c r post e,
  tr = pre ++ (c, r) :: post ->
  isRead c = true ->
  err r = Some e ->
  IsConflict e = false ->
  post = []
  /\ res = abortResult key (lastErrAfter key last pre) fetchFormat e.
Proof.
  induction 1; intros pre c0 r0 post e0 Htr Hr He Hc; locate Htr;
    autorewrite with trace in *; simpl isRead in *; try discriminate;
    try congruence;
    try (assert (e0 = e) by congruence; subst e0; split; reflexivity);
    try (erewrite lastErrAfter_get_conflict, lastErrAfter_sleep by eauto;
         eauto; fail);
    try (erewrite lastErrAfter_ok, lastErrAfter_submit_conflict,
           lastErrAfter_sleep by eauto; eauto; fail).
Qed.

(** A write error that is not a conflict ends the run in the same way. *)
Lemma RetryRun_write_abort n o last w tr o' res w' :
  RetryRun h wk opts key n o last w tr o' res w' ->
  forall pre c r post e,
  tr = pre ++ (c, r) :: post ->
  isWrite c = true ->
  err r = Some e ->
  IsConflict e = false ->
  post = []
  /\ res = abortResult key (lastErrAfter key last pre) updateFormat e.
Proof.
  induction 1; intros pre c0 r0 post e0 Htr Hr He Hc; locate Htr;
    autorewrite with trace in *; simpl isWrite in *; try discriminate;
    try congruence;
    try (assert (e0 = e) by congruence; subst e0; split;
         [reflexivity | erewrite lastErrAfter_ok by eauto; reflexivity]);
    try (erewrite lastErrAfter_get_conflict, lastErrAfter_sleep by eauto;
         eauto; fail);
    try (erewrite lastErrAfter_ok, lastErrAfter_submit_conflict,
           lastErrAfter_sleep by eauto; eauto; fail).
Qed.

(** A write that succeeds ends the run with no error. *)
Lemma RetryRun_write_ok n o last w tr o' res w' :
  RetryRun h wk opts key n o last w tr o' res w' ->
  forall pre c r post,
  tr = pre ++ (c, r) :: post ->
  isWrite c = true ->
  err r = None ->
  post = [] /\ res = None.
Proof.
  induction 1; intros pre c0 r0 post Htr Hr He; locate Htr;
    autorewrite with trace in *; simpl in *; try discriminate;
    try congruence; try (split; congruence); eauto.
Qed.

(** A run begins with the read of its first attempt. *)
Lemma RetryRun_first n o last w tr o' res w' :
  RetryRun h wk opts key n o last w tr o' res w' ->
  exists rg post',
    tr = (ClientGet key (zeroObject (objKind o)), rg) :: post'.
Proof. destruct 1; eauto. Qed.

(** The caller sleeps only between two attempts. *)
Lemma RetryRun_sleep n o last w tr o' res w' :
  RetryRun h wk opts key n o last w tr o' res w' ->
  forall pre rs post,
  tr = pre ++ (Sleep, rs) :: post ->
  exists rg post',
    post = (ClientGet key (zeroObject (objKind (callerObject o pre))), rg)
           :: post'.
Proof.
  induction 1; intros pre rs0 post Htr; locate Htr;
    autorewrite with trace in *; simpl in *; try discriminate;
    try (destruct wk; simpl in *; discriminate);
    eauto using RetryRun_first.
Qed.

(** A conflict, from the read or from the write, is followed by a sleep and
    a new attempt while steps remain; on the last step it ends the run. *)
Lemma RetryRun_conflict n o last w tr o' res w' :
  RetryRun h wk opts key n o last w tr o' res w' ->
  forall pre c r post e,
  tr = pre ++ (c, r) :: post ->
  isRead c = true \/ isWrite c = true ->
  err r = Some e ->
  IsConflict e = true ->
  (attemptsIn (pre ++ [(c, r)]) < n ->
   exists rs rg post',
     post = (Sleep, rs)
            :: (ClientGet key
                  (zeroObject (objKind (callerObject o (pre ++ [(c, r)])))),
                rg)
            :: post')
  /\ (attemptsIn (pre ++ [(c, r)]) = n ->
      post = []
      /\ res = Some (Errorf (if isRead c then fetchFormat else updateFormat)
                            [key] e)).
Proof.
  induction 1; intros pre c0 r0 post e0 Htr Hk He Hc; locate Htr;
    autorewrite with trace in *; simpl in *; autorewrite with trace in *;
    try discriminate; try congruence;
    try (destruct Hk; discriminate);
    try (specialize (IHRetryRun _ _ _ _ _ Htr Hk He Hc) as [IHlt IHeq]);
    (split; intros Hn; try lia);
    try (split; congruence);
    try (apply IHlt; lia); try (apply IHeq; lia);
    match goal with
    | Hrun : RetryRun _ _ _ _ _ _ _ _ ?tr _ _ _ |- _ =>
        destruct (RetryRun_first Hrun) as (rg & post' & ->); eauto
    end.
Qed.

(** When the write call leaves alone the object of a write it rejects, the
    caller's object differs from the original at most in its resource
    version for as long as the run goes on. *)
Lemma RetryRun_prefix_frame n o last w tr o' res w' :
  (forall o0 w0,
     err (fst (h (submitCall wk opts o0) w0)) <> None ->
     after (fst (h (submitCall wk opts o0) w0)) = o0) ->
  RetryRun h wk opts key n o last w tr o' res w' ->
  forall pre ev post v,
  tr = pre ++ ev :: post ->
  SetResourceVersion v (callerObject o pre) = SetResourceVersion v o.
Proof.
  intros Hframe.
  induction 1; intros pre [c0 r0] post v Htr; locate Htr;
    autorewrite with trace in *; simpl callerObject; try reflexivity;
    eauto;
    match goal with
    | Hw : h (submitCall wk opts ?o1) ?w1 = (?r2, _), Hr2 : err ?r2 = Some _
      |- _ =>
        let F := fresh "F" in
        pose proof (Hframe o1 w1) as F; rewrite Hw in F; simpl in F;
        try (erewrite IHRetryRun by eauto);
        rewrite F by congruence
    end;
    reflexivity.
Qed.

(** When the write call changes at most the resource version of the object
    it is given, so does the whole run. *)
Lemma RetryRun_frame n o last w tr o' res w' :
  (forall o0 w0,
     sameButResourceVersion o0 (after (fst (h (submitCall wk opts o0) w0)))) ->
  RetryRun h wk opts key n o last w tr o' res w' ->
  sameButResourceVersion o o'.
Proof.
  intros Hframe.
  induction 1; try apply sameButResourceVersion_refl; auto;
    match goal with
    | Hw : h (submitCall wk opts ?o1) ?w1 = (?r2, _) |- _ =>
        let F := fresh "F" in
        pose proof (Hframe o1 w1) as F; rewrite Hw in F; simpl in F
    end;
    eauto using sameButResourceVersion_trans, sameButResourceVersion_Set.
Qed.

(** When the write call leaves alone the object of a write it rejects, a
    run in which no write was accepted changes at most the resource version
    of the caller's object. *)
Lemma RetryRun_failure_frame n o last w tr o' res w' :
  (forall o0 w0,
     err (fst (h (submitCall wk opts o0) w0)) <> None ->
     after (fst (h (submitCall wk opts o0) w0)) = o0) ->
  RetryRun h wk opts key n o last w tr o' res w' ->
  res <> None ->
  sameButResourceVersion o o'.
Proof.
  intros Hframe.
  induction 1; intros Hres; try apply sameButResourceVersion_refl;
    try congruence;
    match goal with
    | Hw : h (submitCall wk opts ?o1) ?w1 = (?r2, _), Hr2 : err ?r2 = Some _
      |- _ =>
        let F := fresh "F" in
        pose proof (Hframe o1 w1) as F; rewrite Hw in F; simpl in F;
        assert (after r2 = o1) as Hafter by (apply F; congruence)
    | _ => idtac
    end;
    try (rewrite Hafter in *);
    eauto using sameButResourceVersion_trans, sameButResourceVersion_Set.
Qed.

(** The first attempt of a run is what the client answers to its read and,
    when the read succeeds, to the write of the stamped object. *)
Lemma RetryRun_first_attempt n o last w tr o' res w' :
  RetryRun h wk opts key n o last w tr o' res w' ->
  let read := h (ClientGet key (zeroObject (objKind o))) w in
  let stamped :=
    SetResourceVersion (GetResourceVersion (after (fst read))) o in
  match err (fst read) with
  | Some _ =>
      exists rest,
        tr = (ClientGet key (zeroObject (objKind o)), fst read) :: rest
  | None =>
      exists rest,
        tr = (ClientGet key (zeroObject (objKind o)), fst read)
             :: (submitCall wk opts stamped,
                 fst (h (submitCall wk opts stamped) (snd read)))
             :: rest
  end.
Proof.
  destruct 1; cbv zeta;
    match goal with
    | Hr : h (ClientGet _ _) _ = _ |- _ => rewrite Hr; cbn [fst snd]
    end;
    match goal with
    | He : err _ = _ |- _ => rewrite He
    end;
    try match goal with
    | Hw : h (submitCall _ _ _) _ = _ |- _ => rewrite Hw; cbn [fst snd]
    end;
    eauto.
Qed.

(** Every answer in the trace of a run is an answer of the client. *)
Lemma RetryRun_answers n o last w tr o' res w' :
  RetryRun h wk opts key n o last w tr o' res w' ->
  Forall (fun ev => exists w0, fst (h (fst ev) w0) = snd ev) tr.
Proof.
  induction 1;
    repeat (constructor;
            [cbn [fst snd];
             match goal with
             | Hh : h ?c ?w0 = (?r, _) |- exists _, fst (h ?c _) = ?r =>
                 exists w0; rewrite Hh; reflexivity
             end |]);
    auto.
Qed.

End RetryLoop.

(** ** UpdateWithRetry and StatusUpdateWithRetry *)

Lemma retryingUpdate_RetryRun (W : Type) (h : Call -> W -> Reply * W)
  (wk : WriteKind) (obj : Object) (opts : list string) (w : W) :
  let out := run h (retryingUpdate wk obj opts) w in
  RetryRun h wk opts (keyOf obj) (Steps DefaultRetry) obj None w
    (traceOf out) (fst (valueOf out)) (snd (valueOf out)) (worldOf out).
Proof.
  destruct wk; exact (onErrorFrom_RetryRun h _ opts (keyOf obj) 4 obj None w).
Qed.

Lemma attemptsIn_app (a b : list Event) :
  attemptsIn (a ++ b) = attemptsIn a + attemptsIn b.
Proof.
  unfold attemptsIn, countCalls, calls.
  rewrite map_app, filter_app, length_app. reflexivity.
Qed.

Lemma callerObject_app_write (o : Object) (pre : list Event) (c : Call)
  (r : Reply) :
  isWrite c = true -> callerObject o (pre ++ [(c, r)]) = after r.
Proof.
  intros Hc. revert o.
  induction pre as [| [c' r'] pre IH]; intros o; simpl.
  - rewrite Hc. reflexivity.
  - destruct (isWrite c'); apply IH.
Qed.

Lemma callerObject_app_read (o : Object) (pre : list Event) (c : Call)
  (r : Reply) :
  isWrite c = false -> callerObject o (pre ++ [(c, r)]) = callerObject o pre.
Proof.
  intros Hc. revert o.
  induction pre as [| [c' r'] pre IH]; intros o; simpl.
  - rewrite Hc. reflexivity.
  - destruct (isWrite c'); apply IH.
Qed.

Lemma isRead_not_isWrite (c : Call) : isRead c = true -> isWrite c = false.
Proof. destruct c; simpl; congruence. Qed.

(** C2, as the code has it.  Every attempt of [UpdateWithRetry] and of
    [StatusUpdateWithRetry] begins with one [c.Client.Get] of the object's
    key into a new object: the first call of the run is such a read, and so
    is the call after every sleep.  These reads are answered by the informer
    cache of the embedded client; [apiReader], the reader that goes to the
    API server, is never called. *)
Theorem retrying_updates_read_through_the_cache
  (W : Type) (h : Call -> W -> Reply * W) (w : W)
  (wk : WriteKind) (obj : Object) (opts : list string) :
  let tr := traceOf (run h (retryingUpdate wk obj opts) w) in
  countCalls isApiReaderGet tr = 0
  /\ readsFromCache tr
  /\ (exists rg rest,
        tr = (ClientGet (keyOf obj) (zeroObject (objKind obj)), rg) :: rest)
  /\ (forall pre rs post,
        tr = pre ++ (Sleep, rs) :: post ->
        exists rg rest,
          post = (ClientGet (keyOf obj)
                    (zeroObject (objKind (callerObject obj pre))), rg)
                 :: rest).
Proof.
  cbv zeta. pose proof (retryingUpdate_RetryRun h wk obj opts w) as R.
  cbv zeta in R. repeat split.
  - eapply RetryRun_no_ApiReaderGet; eauto.
  - unfold readsFromCache. apply Forall_forall. intros [c r] Hin Hc.
    apply in_split in Hin as (pre & post & Htr).
    simpl in Hc. rewrite (RetryRun_read_shape R pre c r post Htr Hc).
    reflexivity.
  - eapply RetryRun_first; eauto.
  - intros pre rs post Htr. eapply RetryRun_sleep; eauto.
Qed.

(** X11. The loop of [UpdateWithRetry] and of [StatusUpdateWithRetry].  The
    run begins with the read of the object's key and, when that read
    succeeds, goes on with the write of the stamped object.  Of any write
    the run submits:
    - if it succeeds it is the last call and the run returns nil;
    - if it fails with a conflict, wrapping keeps the conflict
      classification; while fewer than [Steps DefaultRetry] attempts have
      been made the run sleeps and starts a new attempt with a read; at the
      last attempt the run ends and returns the conflict wrapped with the
      object's key;
    - if it fails with another error it is the last call, and the run
      returns that error wrapped with the object's key, unless
      [wait.Interrupted] holds for the error: then the run returns the
      wrapped error of the most recent conflict, or nil when there was
      none. *)
Theorem retry_loop_outcomes
  (W : Type) (h : Call -> W -> Reply * W) (w : W)
  (wk : WriteKind) (obj : Object) (opts : list string) :
  let out := run h (retryingUpdate wk obj opts) w in
  let res := snd (valueOf out) in
  let key := mkKey (objNamespace obj) (objName obj) in
  let read := h (ClientGet key (zeroObject (objKind obj))) w in
  let stamped :=
    SetResourceVersion (GetResourceVersion (after (fst read))) obj in
  match err (fst read) with
  | Some _ =>
      exists rest,
        traceOf out
        = (ClientGet key (zeroObject (objKind obj)), fst read) :: rest
  | None =>
      exists rest,
        traceOf out
        = (ClientGet key (zeroObject (objKind obj)), fst read)
          :: (submitCall wk opts stamped,
              fst (h (submitCall wk opts stamped) (snd read)))
          :: rest
  end
  /\ forall pre c r post,
     traceOf out = pre ++ (c, r) :: post ->
     isWrite c = true ->
     attemptsIn (pre ++ [(c, r)]) <= Steps DefaultRetry
     /\ match err r with
        | None => post = [] /\ res = None
        | Some e =>
            if IsConflict e
            then
              IsConflict (Errorf updateFormat [key] e) = true
              /\ (attemptsIn (pre ++ [(c, r)]) < Steps DefaultRetry ->
                  exists rs rg post',
                    post = (Sleep, rs)
                           :: (ClientGet key (zeroObject (objKind (after r))),
                               rg)
                           :: post')
              /\ (attemptsIn (pre ++ [(c, r)]) = Steps DefaultRetry ->
                  post = [] /\ res = Some (Errorf updateFormat [key] e))
            else
              post = []
              /\ res = (if Interrupted e
                        then lastErrAfter key None pre
                        else Some (Errorf updateFormat [key] e))
        end.
Proof.
  cbv zeta.
  pose proof (retryingUpdate_RetryRun h wk obj opts w) as R. cbv zeta in R.
  split; [exact (RetryRun_first_attempt R) |].
  intros pre c r post Htr Hc. split.
  - pose proof (RetryRun_attempts R) as Ha. rewrite Htr in Ha.
    change (pre ++ (c, r) :: post) with (pre ++ [(c, r)] ++ post) in Ha.
    rewrite app_assoc, attemptsIn_app in Ha. lia.
  - destruct (err r) as [e |] eqn:Er.
    + destruct (IsConflict e) eqn:Ce.
      * destruct (RetryRun_conflict R pre c r post Htr (or_intror Hc) Er Ce)
          as [Hlt Heq].
        rewrite (callerObject_app_write obj pre c r Hc) in Hlt.
        assert (isRead c = false) as Hr by (destruct c; simpl in *; congruence).
        rewrite Hr in Heq.
        split; [rewrite IsConflict_Errorf; exact Ce | split; assumption].
      * exact (RetryRun_write_abort R pre c r post Htr Hc Er Ce).
    + eapply RetryRun_write_ok; eauto.
Qed.

(** C5. The reads of the embedded client are reads of the informer cache
    ([informerCacheReads]).  Then, in [UpdateWithRetry] and
    [StatusUpdateWithRetry], a read that fails ends the whole operation at
    once: when the first read fails the run is that read alone, the caller's
    object is untouched and the result is the read's error wrapped with the
    object's key; and in any run a read that fails is the last call, no
    write or further read follows it, and the result is its error, wrapped,
    with the classification of the read's error. *)
Theorem failed_read_ends_the_run
  (W : Type) (h : Call -> W -> Reply * W) (w : W)
  (wk : WriteKind) (obj : Object) (opts : list string) :
  informerCacheReads h ->
  let out := run h (retryingUpdate wk obj opts) w in
  let key := mkKey (objNamespace obj) (objName obj) in
  let read := h (ClientGet key (zeroObject (objKind obj))) w in
  match err (fst read) with
  | Some e =>
      out = ((obj, Some (Errorf fetchFormat [key] e)), snd read,
             [(ClientGet key (zeroObject (objKind obj)), fst read)])
  | None => True
  end
  /\ forall pre c r post e,
     traceOf out = pre ++ (c, r) :: post ->
     isRead c = true ->
     err r = Some e ->
     post = []
     /\ snd (valueOf out) = Some (Errorf fetchFormat [key] e)
     /\ IsNotFound (Errorf fetchFormat [key] e) = IsNotFound e.
Proof.
  intros Hreads. cbv zeta. split.
  - assert (run h (retryingUpdate wk obj opts) w
            = run h (onErrorFrom 5 IsConflict
                       (retryAttempt wk opts (keyOf obj)) (obj, None)) w)
      as -> by (destruct wk; reflexivity).
    rewrite onErrorFrom_S, retryAttempt_run.
    unfold keyOf, GetNamespace, GetName.
    pose proof (Hreads (mkKey (objNamespace obj) (objName obj))
                  (zeroObject (objKind obj)) w) as Hread.
    destruct (h (ClientGet (mkKey (objNamespace obj) (objName obj))
                   (zeroObject (objKind obj))) w) as [r1 w1].
    cbn [fst snd] in *. destruct (err r1) as [e |]; [| exact I].
    destruct (Hread e eq_refl) as [Hc Hi].
    rewrite IsConflict_Errorf, Interrupted_Errorf, Hc, Hi. reflexivity.
  - intros pre c r post e Htr Hc Er.
    pose proof (retryingUpdate_RetryRun h wk obj opts w) as R. cbv zeta in R.
    assert (IsConflict e = false /\ Interrupted e = false) as [Ce Ie].
    { pose proof (RetryRun_answers R) as Hans. rewrite Htr in Hans.
      apply Forall_app in Hans as [_ Hans]. apply Forall_inv in Hans.
      cbn [fst snd] in Hans. destruct Hans as (w0 & Hw0).
      pose proof (RetryRun_read_shape R pre c r post Htr Hc) as Hshape.
      rewrite Hshape in Hw0. eapply Hreads. rewrite Hw0. exact Er. }
    destruct (RetryRun_read_abort R pre c r post Htr Hc Er Ce) as [Hpost Hres].
    unfold abortResult in Hres. rewrite Ie in Hres. auto.
Qed.

(** C6, as the code has it.  In [UpdateWithRetry] and
    [StatusUpdateWithRetry], when the first read succeeds the run goes on
    with the write of the caller's object stamped with the version of the
    copy that read returned; every successful read of a run is followed by
    such a write, and every write comes right after a successful read of
    the same attempt and submits the caller's object, as it stands when the
    attempt starts, with its resource version replaced by the one of the
    copy just read.  That copy is the answer of [c.Client.Get], the copy of
    the informer cache.  When the write call leaves alone the object of a
    write it rejects, the object submitted is the object the caller
    supplied with nothing but its resource version replaced. *)
Theorem writes_carry_the_version_just_read
  (W : Type) (h : Call -> W -> Reply * W) (w : W)
  (wk : WriteKind) (obj : Object) (opts : list string) :
  let tr := traceOf (run h (retryingUpdate wk obj opts) w) in
  let key := mkKey (objNamespace obj) (objName obj) in
  let read := h (ClientGet key (zeroObject (objKind obj))) w in
  let stamped :=
    SetResourceVersion (GetResourceVersion (after (fst read))) obj in
  match err (fst read) with
  | Some _ => True
  | None =>
      exists rest,
        tr = (ClientGet key (zeroObject (objKind obj)), fst read)
             :: (submitCall wk opts stamped,
                 fst (h (submitCall wk opts stamped) (snd read)))
             :: rest
  end
  /\ (forall pre c r post,
        tr = pre ++ (c, r) :: post ->
        isRead c = true ->
        err r = None ->
        servedBy c = InformerCache
        /\ exists r2 post',
             post = (submitCall wk opts
                       (SetResourceVersion (GetResourceVersion (after r))
                          (callerObject obj pre)), r2) :: post')
  /\ forall pre c r post,
     tr = pre ++ (c, r) :: post ->
     isWrite c = true ->
     exists pre' rg,
       pre = pre' ++ [(ClientGet key
                         (zeroObject (objKind (callerObject obj pre'))), rg)]
       /\ err rg = None
       /\ c = submitCall wk opts
                (SetResourceVersion (GetResourceVersion (after rg))
                   (callerObject obj pre'))
       /\ GetResourceVersion (callObject c) = GetResourceVersion (after rg)
       /\ sameButResourceVersion (callerObject obj pre') (callObject c)
       /\ ((forall o0 w0,
              err (fst (h (submitCall wk opts o0) w0)) <> None ->
              after (fst (h (submitCall wk opts o0) w0)) = o0) ->
           c = submitCall wk opts
                 (SetResourceVersion (GetResourceVersion (after rg)) obj)).
Proof.
  cbv zeta.
  pose proof (retryingUpdate_RetryRun h wk obj opts w) as R. cbv zeta in R.
  split; [| split].
  - pose proof (RetryRun_first_attempt R) as F. cbv zeta in F.
    unfold keyOf, GetNamespace, GetName in F.
    destruct (err (fst (h (ClientGet (mkKey (objNamespace obj) (objName obj))
                             (zeroObject (objKind obj))) w)));
      [exact I | exact F].
  - intros pre c r post Htr Hc Er. split.
    + rewrite (RetryRun_read_shape R pre c r post Htr Hc). reflexivity.
    + exact (RetryRun_read_ok R pre c r post Htr Hc Er).
  - intros pre c r post Htr Hc.
    destruct (RetryRun_write_shape R pre c r post Htr Hc)
      as (pre' & rg & Hpre & Hrg & Hcall).
    exists pre', rg. subst c. rewrite submitCall_callObject.
    repeat split; auto using sameButResourceVersion_Set.
    intros Hframe. f_equal.
    rewrite Hpre, <- app_assoc in Htr.
    exact (RetryRun_prefix_frame Hframe R pre' _ _ _ Htr).
Qed.

(** C10, as the code has it.  The only change [UpdateWithRetry] and
    [StatusUpdateWithRetry] make themselves to the caller's object is
    [SetResourceVersion].  The run begins with a read into a new zero
    object; every read is given a new zero object of the dynamic type of
    the caller's object, never the caller's object; every write is given
    the caller's object with at most its resource version changed; after
    the run the caller's object is as the last write call left it, so
    whatever else has changed was changed by a write call the object was
    handed to.  When the write call leaves alone the object of a write it
    rejects and the run returns an error, the caller's object agrees with
    the one supplied on every field but the resource version.  And there is
    a run that returns an error and leaves the caller's object with a
    changed resource version. *)
Theorem retrying_updates_set_only_the_resource_version (wk : WriteKind) :
  (forall (W : Type) (h : Call -> W -> Reply * W) (w : W)
          (obj : Object) (opts : list string),
     let out := run h (retryingUpdate wk obj opts) w in
     (exists rest,
        traceOf out
        = (ClientGet (keyOf obj) (zeroObject (objKind obj)),
           fst (h (ClientGet (keyOf obj) (zeroObject (objKind obj))) w))
          :: rest)
     /\ (forall pre c r post,
           traceOf out = pre ++ (c, r) :: post ->
           (isRead c = true ->
            c = ClientGet (keyOf obj)
                  (zeroObject (objKind (callerObject obj pre))))
           /\ (isWrite c = true ->
               sameButResourceVersion (callerObject obj pre) (callObject c)))
     /\ fst (valueOf out) = callerObject obj (traceOf out)
     /\ ((forall o0 w0,
            err (fst (h (submitCall wk opts o0) w0)) <> None ->
            after (fst (h (submitCall wk opts o0) w0)) = o0) ->
         snd (valueOf out) <> None ->
         sameButResourceVersion obj (fst (valueOf out))))
  /\ (let out :=
        run cluster (retryingUpdate wk (configMap "" "new") [])
            (staleCluster false) in
      snd (valueOf out) <> None
      /\ objResourceVersion (fst (valueOf out)) = "5"
      /\ objResourceVersion (configMap "" "new") = "").
Proof.
  split.
  - intros W h w obj opts. cbv zeta.
    pose proof (retryingUpdate_RetryRun h wk obj opts w) as R. cbv zeta in R.
    split; [| split; [| split]].
    + pose proof (RetryRun_first_attempt R) as F. cbv zeta in F.
      destruct (err (fst (h (ClientGet (keyOf obj)
                               (zeroObject (objKind obj))) w)));
        destruct F as (rest & ->); eauto.
    + intros pre c r post Htr. split; intros Hc.
      * exact (RetryRun_read_shape R pre c r post Htr Hc).
      * destruct (RetryRun_write_shape R pre c r post Htr Hc)
          as (pre' & rg & Hpre & Hrg & Hcall).
        subst c. rewrite submitCall_callObject.
        rewrite Hpre.
        rewrite (callerObject_app_read obj pre' (ClientGet _ _) rg eq_refl).
        apply sameButResourceVersion_Set.
    + exact (RetryRun_final R).
    + intros Hframe Hres. exact (RetryRun_failure_frame Hframe R Hres).
  - destruct wk; vm_compute; repeat split; discriminate.
Qed.

(** ** Building the client *)

Lemma getInformers_run (W : Type) (h : BuildCall -> W -> option error * W)
  (resources : list Kind) (w : W) :
  let out := run h (getInformers resources) w in
  match valueOf out with
  | None => traceOf out = allEstablished resources
  | Some e =>
      exists before k later,
        resources = before ++ k :: later
        /\ traceOf out = allEstablished before ++ [(GetInformer k, Some e)]
  end.
Proof.
  revert w. induction resources as [| k rest IH]; intros w; cbv zeta.
  - reflexivity.
  - cbn [getInformers run].
    destruct (h (GetInformer k) w) as [[e |] w1]; cbn [run].
    + exists [], k, rest. split; reflexivity.
    + specialize (IH w1). cbv zeta in IH.
      destruct (run h (getInformers rest) w1) as [[res w2] tr].
      unfold valueOf, traceOf in *. cbn [fst snd] in *.
      destruct res as [e |].
      * destruct IH as (before & k' & later & -> & ->).
        exists (k :: before), k', later. split; reflexivity.
      * rewrite IH. reflexivity.
Qed.

(** Every run of [BuildCustomClient] follows the rules of [BuildRun]. *)
Lemma BuildCustomClient_BuildRun (key value : string)
  (W : Type) (h : BuildCall -> W -> option error * W) (w : W) :
  let out := run h (BuildCustomClient key value) w in
  BuildRun key value (traceOf out) (valueOf out).
Proof.
  cbv zeta. unfold BuildCustomClient. cbn [run].
  destruct (h (NewRequirement key selection_Equals [value]) w)
    as [[e0 |] w0]; cbn [run].
  { apply BR_requirement. }
  destruct (h (CacheNew (customCacheOpts key value)) w0)
    as [[e1 |] w1]; cbn [run].
  { apply BR_cache. }
  rewrite run_bind.
  pose proof (getInformers_run h informerResources w1) as I. cbv zeta in I.
  destruct (run h (getInformers informerResources) w1) as [[res w2] tinf].
  unfold valueOf, traceOf in I. cbn [fst snd] in I.
  destruct res as [e2 |]; cbn [run].
  { destruct I as (before & k & later & Hsplit & ->).
    unfold traceOf, valueOf. cbn [fst snd]. rewrite app_nil_r.
    eapply BR_informer; eauto. }
  subst tinf.
  destruct (h MgrAdd w2) as [[e3 |] w3]; cbn [run].
  { apply BR_add. }
  destruct (h (ClientNew (mkClientOptions (customCacheOpts key value))) w3)
    as [[e4 |] w4]; cbn [run].
  { apply BR_client. }
  apply BR_built.
Qed.

Lemma NewCustomClient_run (key value : string)
  (W : Type) (h : BuildCall -> W -> option error * W) (w : W) :
  let build := run h (BuildCustomClient key value) w in
  let out := run h (NewCustomClient key value) w in
  traceOf out = traceOf build
  /\ valueOf out =
       match valueOf build with
       | Failed e => Failed (Errorf buildFormat [] e)
       | Ok c => Ok (mkImpl c ManagerAPIReader)
       end.
Proof.
  cbv zeta. unfold NewCustomClient. rewrite run_bind.
  destruct (run h (BuildCustomClient key value) w) as [[r w1] tr].
  destruct r; cbn [run]; unfold traceOf, valueOf; cbn [fst snd];
    rewrite app_nil_r; auto.
Qed.

Lemma In_allEstablished (k : Kind) (e : option error) (l : list Kind) :
  In (GetInformer k, e) (allEstablished l) -> e = None /\ In k l.
Proof.
  unfold allEstablished. rewrite in_map_iff.
  intros (k' & Heq & Hin). injection Heq as <- <-. auto.
Qed.

Lemma allEstablished_In (k : Kind) (l : list Kind) :
  In k l -> In (GetInformer k, None) (allEstablished l).
Proof. intros H. unfold allEstablished. apply in_map_iff. eauto. Qed.

(** A build in which an informer could not be established has failed. *)
Lemma BuildRun_informer_failed (key value : string)
  (tr : list BuildEvent) (res : Result BuiltClient) :
  BuildRun key value tr res ->
  someInformerFailed tr ->
  exists e, res = Failed e.
Proof.
  destruct 1; intros (k0 & e0 & Hin); eauto.
  exfalso.
  destruct Hin as [Hin | [Hin | Hin]]; try discriminate.
  apply in_app_iff in Hin as [Hin | Hin].
  - apply In_allEstablished in Hin as [Hin _]. discriminate.
  - simpl in Hin. destruct Hin as [Hin | [Hin | []]]; discriminate.
Qed.

(** A build that succeeded has established every informer. *)
Lemma BuildRun_built (key value : string)
  (tr : list BuildEvent) (c : BuiltClient) :
  BuildRun key value tr (Ok c) ->
  forall k, In k informerResources -> established k tr.
Proof.
  inversion 1; subst. intros k Hk. unfold established.
  right. right. apply in_app_iff. left. apply allEstablished_In. exact Hk.
Qed.

(** C8. [BuildCustomClient] and [NewCustomClient] fail whenever the informer
    of some kind could not be established: both return an error, the one of
    [NewCustomClient] wrapping the one of [BuildCustomClient], and no
    client.  When they succeed, the informer of every kind of
    [informerResources] has been established. *)
Theorem construction_fails_when_an_informer_fails
  (key value : string)
  (W : Type) (h : BuildCall -> W -> option error * W) (w : W) :
  let build := run h (BuildCustomClient key value) w in
  let out := run h (NewCustomClient key value) w in
  traceOf out = traceOf build
  /\ (someInformerFailed (traceOf out) ->
      exists e, valueOf build = Failed e
                /\ valueOf out = Failed (Errorf buildFormat [] e))
  /\ (isOk (valueOf out) = true ->
      isOk (valueOf build) = true
      /\ forall k, In k informerResources -> established k (traceOf out)).
Proof.
  cbv zeta.
  destruct (NewCustomClient_run key value h w) as [Htr Hval].
  pose proof (BuildCustomClient_BuildRun key value h w) as B. cbv zeta in B.
  rewrite Htr, Hval. split; [reflexivity | split].
  - intros Hfail.
    destruct (BuildRun_informer_failed B Hfail) as (e & He).
    rewrite He. eauto.
  - destruct (valueOf (run h (BuildCustomClient key value) w)) as [c | e]
      eqn:Hb; [| discriminate].
    intros _. split; [reflexivity |].
    eapply BuildRun_built; eauto.
Qed.

Lemma allEstablished_calls (c : BuildCall) (e : option error) (l : list Kind) :
  In (c, e) (allEstablished l) -> exists k, c = GetInformer k.
Proof.
  unfold allEstablished. rewrite in_map_iff.
  intros (k & Heq & _). injection Heq as <- _. eauto.
Qed.

(** The cache is only ever created with [customCacheOpts]. *)
Lemma BuildRun_cache_options (key value : string)
  (tr : list BuildEvent) (res : Result BuiltClient) :
  BuildRun key value tr res ->
  forall o e, In (CacheNew o, e) tr -> o = customCacheOpts key value.
Proof.
  destruct 1; intros o0 e0 Hin;
    (destruct Hin as [Hin | Hin]; [discriminate |]);
    try (destruct Hin as [Hin | Hin]; [injection Hin as <- _; reflexivity |]);
    try contradiction;
    apply in_app_iff in Hin as [Hin | Hin];
    try (apply allEstablished_calls in Hin as (k' & Hk); discriminate);
    simpl in Hin; intuition discriminate.
Qed.

Lemma NoDup_informerResources : NoDup informerResources.
Proof.
  unfold informerResources.
  repeat (constructor; [simpl; intuition discriminate |]). constructor.
Qed.

Lemma NoDup_cached :
  NoDup (cacheResources ++ cacheResourceWithoutReqSelectors).
Proof.
  unfold cacheResources, cacheResourceWithoutReqSelectors. simpl app.
  repeat (constructor; [simpl; intuition discriminate |]). constructor.
Qed.


(** ** C2, C4, C6 and C10 as the specification words them *)

(** C2, as stated, fails.  The API server stores version 6 of a ConfigMap,
    the informer cache still holds version 5 and does not catch up.  The
    reads of [UpdateWithRetry] are not answered by the API server: they
    return the copy of the cache, each write is submitted with version 5,
    and the run ends with a conflict although nobody else writes. *)
Lemma stale_cache_read_is_not_direct :
  let out :=
    run cluster (CustomCtrlClient.UpdateWithRetry (configMap "" "new") [])
        (staleCluster false) in
  ~ readsBypassCache (traceOf out)
  /\ snd (valueOf out) =
       Some (Errorf updateFormat [mkKey "zero-trust" "spire-server"]
               errConflict)
  /\ attemptsIn (traceOf out) = 5.
Proof.
  cbv zeta. split; [| split; vm_compute; reflexivity].
  intros H. unfold readsBypassCache in H.
  vm_compute in H. apply Forall_inv in H.
  specialize (H eq_refl). discriminate.
Qed.

(** C6, as stated, fails.  In the same cluster the stored copy has version
    6 throughout, since no write is accepted; the writes of
    [UpdateWithRetry] do not carry the version of the stored copy but
    version 5, the one of the copy the cache returned. *)
Lemma stale_writes_carry_the_cached_version :
  let out :=
    run cluster (CustomCtrlClient.UpdateWithRetry (configMap "" "new") [])
        (staleCluster false) in
  ~ writesCarryStoredVersion (staleCluster false) (traceOf out)
  /\ worldOf out = staleCluster false
  /\ storedVersion (staleCluster false) (configMap "" "new") = Some "6".
Proof.
  cbv zeta. split; [| split; vm_compute; reflexivity].
  intros H. unfold writesCarryStoredVersion in H.
  vm_compute in H. apply Forall_inv_tail in H. apply Forall_inv in H.
  specialize (H eq_refl). discriminate.
Qed.

(** C10, as stated, fails.  Cache and API server agree; the status update
    of [StatusUpdateWithRetry] is accepted at the first attempt and the
    write call leaves the stored object in the caller's object: the call
    returns nil and the caller's payload has gone from new to stored. *)
Lemma accepted_status_update_rewrites_the_callers_object :
  let out :=
    run cluster
        (CustomCtrlClient.StatusUpdateWithRetry (configMap "" "new") [])
        syncedCluster in
  ~ sameButResourceVersion (configMap "" "new") (fst (valueOf out))
  /\ snd (valueOf out) = None
  /\ objSpec (configMap "" "new") = "new"
  /\ objSpec (fst (valueOf out)) = "stored".
Proof.
  cbv zeta. split; [| vm_compute; auto].
  intros (_ & _ & _ & _ & Hspec & _). vm_compute in Hspec. discriminate.
Qed.

(** C4.  The loop does not surface every error of a write.  Cache and API
    server agree, and the caller's context is cancelled: the read is
    answered by the cache, the write fails with [context.Canceled], which
    is not a conflict, and nothing is stored.  [UpdateWithRetry] and
    [StatusUpdateWithRetry] abort after that write and return nil, where
    [Update] on the same object in the same world returns the error. *)
Theorem cancelled_write_is_returned_as_success :
  let out :=
    run cancelledCluster
        (CustomCtrlClient.UpdateWithRetry (configMap "" "new") [])
        syncedCluster in
  traceOf out
  = [(ClientGet (mkKey "zero-trust" "spire-server") (zeroObject ConfigMap),
      mkReply (configMap "6" "stored") None);
     (ClientUpdate (configMap "6" "new") [],
      mkReply (configMap "6" "new") (Some errCanceled))]
  /\ IsConflict errCanceled = false
  /\ snd (valueOf out) = None
  /\ worldOf out = syncedCluster
  /\ snd (valueOf
            (run cancelledCluster
                 (CustomCtrlClient.StatusUpdateWithRetry
                    (configMap "" "new") [])
                 syncedCluster)) = None
  /\ snd (valueOf
            (run cancelledCluster
                 (CustomCtrlClient.Update (configMap "6" "new") [])
                 syncedCluster)) = Some errCanceled.
Proof. cbv zeta. repeat split. Qed.

(** ** The properties at work on concrete runs *)

(** The write calls of the small cluster leave alone the object of a write
    they reject, and its reads are reads of the informer cache. *)
Lemma cluster_rejected_write_frame (wk : WriteKind) (o : Object)
  (w : Cluster) :
  err (fst (cluster (submitCall wk [] o) w)) <> None ->
  after (fst (cluster (submitCall wk [] o) w)) = o.
Proof.
  destruct wk; simpl; unfold storeWrite;
    (destruct (lookupObject _ _ _) as [s |]; [| reflexivity]);
    destruct (_ || _); simpl; congruence.
Qed.

Lemma cluster_reads : informerCacheReads cluster.
Proof.
  intros key into w e. simpl. unfold readFrom.
  destruct (lookupObject _ _ _) as [s |]; simpl; [discriminate |].
  intros H. injection H as <-. split; reflexivity.
Qed.

(** With a cache that catches up during the backoff, the first write is
    rejected, the second attempt reads version 6 and its write is stored. *)
Example UpdateWithRetry_succeeds_on_the_second_attempt :
  let out :=
    run cluster (CustomCtrlClient.UpdateWithRetry (configMap "" "new") [])
        (staleCluster true) in
  snd (valueOf out) = None
  /\ attemptsIn (traceOf out) = 2
  /\ apiObjects (worldOf out) = [configMap "6+" "new"].
Proof. vm_compute. repeat split. Qed.

(** With a cache that catches up during the backoff, the call after the
    sleep is the read of the second attempt. *)
Lemma retrying_updates_read_through_the_cache_witness :
  let tr :=
    traceOf (run cluster (retryingUpdate FullUpdate (configMap "" "new") [])
                 (staleCluster true)) in
  tr = firstn 2 tr ++ (Sleep, mkReply (callObject Sleep) None) :: skipn 3 tr
  /\ exists rg rest,
       skipn 3 tr =
       (ClientGet (mkKey "zero-trust" "spire-server") (zeroObject ConfigMap),
        rg) :: rest.
Proof.
  cbv zeta.
  set (tr := traceOf (run cluster
                        (retryingUpdate FullUpdate (configMap "" "new") [])
                        (staleCluster true))).
  assert (E : tr = firstn 2 tr
                   ++ (Sleep, mkReply (callObject Sleep) None) :: skipn 3 tr)
    by (vm_compute; reflexivity).
  split; [exact E |].
  destruct (retrying_updates_read_through_the_cache cluster
              (staleCluster true) FullUpdate (configMap "" "new") [])
    as (_ & _ & _ & Hsleep).
  destruct (Hsleep _ _ _ E) as (rg & rest & Hpost).
  exists rg, rest. rewrite Hpost. reflexivity.
Defined.

(** With a cache that stays stale, the fifth conflict ends the run of
    either method with a conflict error that names the key. *)
Lemma retry_loop_outcomes_witness :
  (let out :=
     run cluster (retryingUpdate FullUpdate (configMap "" "new") [])
         (staleCluster false) in
   snd (valueOf out) =
     Some (Errorf updateFormat [mkKey "zero-trust" "spire-server"]
             errConflict))
  /\ (let out :=
        run cluster (retryingUpdate StatusSubresource (configMap "" "new") [])
            (staleCluster false) in
      snd (valueOf out) =
        Some (Errorf updateFormat [mkKey "zero-trust" "spire-server"]
                errConflict)).
Proof.
  split; cbv zeta;
    match goal with
    | |- snd (valueOf (run cluster (retryingUpdate ?wk ?obj []) ?w)) = _ =>
        set (out := run cluster (retryingUpdate wk obj []) w);
        set (ev := nth 13 (traceOf out)
                     (Sleep, mkReply (callObject Sleep) None));
        assert (E : traceOf out
                    = firstn 13 (traceOf out) ++ (fst ev, snd ev)
                      :: skipn 14 (traceOf out))
          by (vm_compute; reflexivity);
        destruct (retry_loop_outcomes cluster w wk obj []) as [_ H];
        destruct (H (firstn 13 (traceOf out)) (fst ev) (snd ev)
                    (skipn 14 (traceOf out)) E eq_refl) as [_ H'];
        change (err (snd ev)) with (Some errConflict) in H';
        change (IsConflict errConflict) with true in H';
        cbv iota in H'; destruct H' as (_ & _ & Hlast);
        destruct (Hlast eq_refl) as [_ Hres]; exact Hres
    end.
Defined.

(** The API server has the ConfigMap, the cache has not seen it: the read
    of either method fails with NotFound and ends the run at once. *)
Lemma failed_read_ends_the_run_witness :
  (let out :=
     run cluster (retryingUpdate FullUpdate (configMap "" "new") [])
         laggingCluster in
   snd (valueOf out) =
     Some (Errorf fetchFormat [mkKey "zero-trust" "spire-server"]
             errNotFound))
  /\ (let out :=
        run cluster (retryingUpdate StatusSubresource (configMap "" "new") [])
            laggingCluster in
      snd (valueOf out) =
        Some (Errorf fetchFormat [mkKey "zero-trust" "spire-server"]
                errNotFound)).
Proof.
  split; cbv zeta;
    match goal with
    | |- snd (valueOf (run cluster (retryingUpdate ?wk ?obj []) ?w)) = _ =>
        set (out := run cluster (retryingUpdate wk obj []) w);
        assert (E : traceOf out
                    = [] ++ (ClientGet (mkKey "zero-trust" "spire-server")
                               (zeroObject ConfigMap),
                             mkReply (zeroObject ConfigMap)
                               (Some errNotFound)) :: [])
          by (vm_compute; reflexivity);
        destruct (@failed_read_ends_the_run _ cluster w wk obj []
                    cluster_reads) as [_ H];
        destruct (H [] _ _ [] errNotFound E eq_refl eq_refl)
          as (_ & Hres & _);
        exact Hres
    end.
Defined.

(** With cache and API server in step, the one write of either method
    submits the caller's object with the version just read. *)
Lemma writes_carry_the_version_just_read_witness :
  (let tr :=
     traceOf (run cluster (retryingUpdate FullUpdate (configMap "" "new") [])
                  syncedCluster) in
   exists pre' rg,
     firstn 1 tr =
     pre' ++ [(ClientGet (mkKey "zero-trust" "spire-server")
                 (zeroObject
                    (objKind (callerObject (configMap "" "new") pre'))),
               rg)]
     /\ err rg = None
     /\ ClientUpdate (configMap "6" "new") [] =
        ClientUpdate
          (SetResourceVersion (GetResourceVersion (after rg))
             (configMap "" "new")) [])
  /\ (let tr :=
        traceOf (run cluster
                     (retryingUpdate StatusSubresource (configMap "" "new") [])
                     syncedCluster) in
      exists pre' rg,
        firstn 1 tr =
        pre' ++ [(ClientGet (mkKey "zero-trust" "spire-server")
                    (zeroObject
                       (objKind (callerObject (configMap "" "new") pre'))),
                  rg)]
        /\ err rg = None
        /\ ClientStatusUpdate (configMap "6" "new") [] =
           ClientStatusUpdate
             (SetResourceVersion (GetResourceVersion (after rg))
                (configMap "" "new")) []).
Proof.
  split; cbv zeta.
  - set (tr := traceOf (run cluster
                          (retryingUpdate FullUpdate (configMap "" "new") [])
                          syncedCluster)).
    set (r := snd (nth 1 tr (Sleep, mkReply (callObject Sleep) None))).
    assert (E : tr = firstn 1 tr ++ (ClientUpdate (configMap "6" "new") [], r)
                     :: skipn 2 tr)
      by (vm_compute; reflexivity).
    destruct (writes_carry_the_version_just_read cluster syncedCluster
                FullUpdate (configMap "" "new") []) as (_ & _ & H).
    destruct (H (firstn 1 tr) (ClientUpdate (configMap "6" "new") []) r
                (skipn 2 tr) E eq_refl)
      as (pre' & rg & Hpre & Hrg & _ & _ & _ & Hframe).
    exists pre', rg. split; [exact Hpre | split; [exact Hrg |]].
    exact (Hframe (cluster_rejected_write_frame FullUpdate)).
  - set (tr := traceOf (run cluster
                          (retryingUpdate StatusSubresource
                             (configMap "" "new") [])
                          syncedCluster)).
    set (r := snd (nth 1 tr (Sleep, mkReply (callObject Sleep) None))).
    assert (E : tr = firstn 1 tr
                     ++ (ClientStatusUpdate (configMap "6" "new") [], r)
                     :: skipn 2 tr)
      by (vm_compute; reflexivity).
    destruct (writes_carry_the_version_just_read cluster syncedCluster
                StatusSubresource (configMap "" "new") []) as (_ & _ & H).
    destruct (H (firstn 1 tr) (ClientStatusUpdate (configMap "6" "new") []) r
                (skipn 2 tr) E eq_refl)
      as (pre' & rg & Hpre & Hrg & _ & _ & _ & Hframe).
    exists pre', rg. split; [exact Hpre | split; [exact Hrg |]].
    exact (Hframe (cluster_rejected_write_frame StatusSubresource)).
Defined.

(** With a cache that stays stale, the caller's ConfigMap comes back from
    either method with a changed resource version and nothing else
    changed. *)
Lemma retrying_updates_set_only_the_resource_version_witness :
  (let out :=
     run cluster (retryingUpdate FullUpdate (configMap "" "new") [])
         (staleCluster false) in
   sameButResourceVersion (configMap "" "new") (fst (valueOf out))
   /\ objResourceVersion (fst (valueOf out)) = "5")
  /\ (let out :=
        run cluster (retryingUpdate StatusSubresource (configMap "" "new") [])
            (staleCluster false) in
      sameButResourceVersion (configMap "" "new") (fst (valueOf out))
      /\ objResourceVersion (fst (valueOf out)) = "5").
Proof.
  split; cbv zeta.
  - destruct (retrying_updates_set_only_the_resource_version FullUpdate)
      as [Hall (Herr & Hrv & _)].
    split; [| exact Hrv].
    destruct (Hall Cluster cluster (staleCluster false) (configMap "" "new")
                [])
      as (_ & _ & _ & Hframe).
    exact (Hframe (cluster_rejected_write_frame FullUpdate) Herr).
  - destruct (retrying_updates_set_only_the_resource_version
                StatusSubresource)
      as [Hall (Herr & Hrv & _)].
    split; [| exact Hrv].
    destruct (Hall Cluster cluster (staleCluster false) (configMap "" "new")
                [])
      as (_ & _ & _ & Hframe).
    exact (Hframe (cluster_rejected_write_frame StatusSubresource) Herr).
Defined.

(** When the informer of SpireAgent is denied, no client is built; when
    every call succeeds, the informer of SpireAgent is established. *)
Lemma construction_fails_when_an_informer_fails_witness :
  (exists e,
     valueOf (run (informerDenied SpireAgent)
                  (NewCustomClient "app.kubernetes.io/managed-by"
                     "zero-trust-workload-identity-manager") tt)
     = Failed (Errorf buildFormat [] e))
  /\ established SpireAgent
       (traceOf (run allSucceed
                     (NewCustomClient "app.kubernetes.io/managed-by"
                        "zero-trust-workload-identity-manager") tt)).
Proof.
  split.
  - destruct (construction_fails_when_an_informer_fails
                "app.kubernetes.io/managed-by"
                "zero-trust-workload-identity-manager"
                (informerDenied SpireAgent) tt)
      as (_ & Hfail & _).
    destruct Hfail as (e & _ & He).
    + exists SpireAgent, errForbidden. vm_compute.
      repeat (first [left; reflexivity | right]).
    + exists e. exact He.
  - destruct (construction_fails_when_an_informer_fails
                "app.kubernetes.io/managed-by"
                "zero-trust-workload-identity-manager"
                allSucceed tt)
      as (_ & _ & Hok).
    destruct (Hok eq_refl) as [_ Hall].
    apply Hall. vm_compute. repeat (first [left; reflexivity | right]).
Defined.


(* ===================================================================== *)
(** * Further properties *)
(* ===================================================================== *)

(** ** Get, Exists and CreateOrUpdateObject as a whole *)

(** X1. [Get] makes one or two calls and no write, and returns the object
    and the error of its last call unchanged.  An error of [Get] that is
    classified NotFound is always the answer of [apiReader]: the NotFound of
    the cache is never what the caller sees. *)
Theorem Get_NotFound_comes_from_the_api_reader
  (W : Type) (h : Call -> W -> Reply * W) (w : W)
  (key : ObjectKey) (obj : Object) :
  let out := run h (CustomCtrlClient.Get key obj) w in
  exists pre c r,
    traceOf out = pre ++ [(c, r)]
    /\ length pre <= 1
    /\ valueOf out = (after r, err r)
    /\ countCalls isWrite (traceOf out) = 0
    /\ match err r with
       | Some e => if IsNotFound e then isApiReaderGet c = true else True
       | None => True
       end.
Proof.
  cbv zeta. unfold CustomCtrlClient.Get. cbn [run].
  destruct (h (ClientGet key obj) w) as [r1 w1].
  destruct (err r1) as [e |] eqn:E1; [destruct (IsNotFound e) eqn:NF |].
  - cbn [run]. destruct (h (ApiReaderGet key (after r1)) w1) as [r2 w2].
    exists [(ClientGet key obj, r1)], (ApiReaderGet key (after r1)), r2.
    cbn. repeat split; auto. destruct (err r2) as [e2 |]; auto.
    destruct (IsNotFound e2); auto.
  - exists [], (ClientGet key obj), r1. cbn. rewrite E1, NF.
    repeat split; auto.
  - exists [], (ClientGet key obj), r1. cbn. rewrite E1.
    repeat split; auto.
Qed.

(** X2. [Exists] and [Get], started in the same world on the same key and
    object, agree unless the cache reports NotFound.  When [Exists] answers
    true, [Get] returns the same object with no error after the same single
    call; when [Exists] returns an error, [Get] returns that error; when
    [Exists] answers (false, nil), [Get] goes on to ask [apiReader] and
    returns what it answers. *)
Theorem Exists_and_Get_differ_only_on_cache_NotFound
  (W : Type) (h : Call -> W -> Reply * W) (w : W)
  (key : ObjectKey) (obj : Object) :
  let ex := run h (CustomCtrlClient.Exists key obj) w in
  let get := run h (CustomCtrlClient.Get key obj) w in
  match snd (valueOf ex) with
  | (true, _) =>
      get = ((fst (valueOf ex), None), worldOf ex, traceOf ex)
  | (false, Some e) =>
      get = ((fst (valueOf ex), Some e), worldOf ex, traceOf ex)
  | (false, None) =>
      let second :=
        h (ApiReaderGet key (fst (valueOf ex))) (worldOf ex) in
      get = ((after (fst second), err (fst second)), snd second,
             traceOf ex
             ++ [(ApiReaderGet key (fst (valueOf ex)), fst second)])
  end.
Proof.
  cbv zeta. unfold CustomCtrlClient.Exists, CustomCtrlClient.Get.
  cbn [run].
  destruct (h (ClientGet key obj) w) as [r1 w1].
  destruct (err r1) as [e |] eqn:E1; [destruct (IsNotFound e) eqn:NF |];
    cbn; try reflexivity.
  destruct (h (ApiReaderGet key (after r1)) w1) as [r2 w2]. reflexivity.
Qed.

(** X3. [CreateOrUpdateObject] makes one or two calls and no read, and
    returns the error of its last call as it is, without wrapping it.  An
    error it returns that is classified AlreadyExists is always the answer
    of the Update call: the AlreadyExists of Create is never what the caller
    sees. *)
Theorem CreateOrUpdateObject_returns_the_last_error
  (W : Type) (h : Call -> W -> Reply * W) (w : W) (obj : Object) :
  let out := run h (CustomCtrlClient.CreateOrUpdateObject obj) w in
  exists pre c r,
    traceOf out = pre ++ [(c, r)]
    /\ length pre <= 1
    /\ valueOf out = (after r, err r)
    /\ countCalls isRead (traceOf out) = 0
    /\ match err r with
       | Some e => if IsAlreadyExists e then isClientUpdate c = true else True
       | None => True
       end.
Proof.
  cbv zeta. unfold CustomCtrlClient.CreateOrUpdateObject,
    CustomCtrlClient.Create, CustomCtrlClient.Update. cbn [run bind].
  destruct (h (ClientCreate obj []) w) as [r1 w1].
  destruct (err r1) as [e |] eqn:E1; [destruct (IsAlreadyExists e) eqn:AE |].
  - cbn [run]. destruct (h (ClientUpdate (after r1) []) w1) as [r2 w2].
    exists [(ClientCreate obj [], r1)], (ClientUpdate (after r1) []), r2.
    cbn. repeat split; auto. destruct (err r2) as [e2 |]; auto.
    destruct (IsAlreadyExists e2); auto.
  - exists [], (ClientCreate obj []), r1. cbn. rewrite E1, AE.
    repeat split; auto.
  - exists [], (ClientCreate obj []), r1. cbn. rewrite E1.
    repeat split; auto.
Qed.

(** ** The retrying updates as a whole *)

Section RetryWhole.

Variable W : Type.
Variable h : Call -> W -> Reply * W.
Variable wk : WriteKind.
Variable opts : list string.
Variable key : ObjectKey.

Lemma countCalls_cons (p : Call -> bool) (c : Call) (r : Reply)
  (tr : list Event) :
  countCalls p ((c, r) :: tr) = (if p c then 1 else 0) + countCalls p tr.
Proof. unfold countCalls, calls. simpl. destruct (p c); reflexivity. Qed.

Lemma submitCall_isSleep (o : Object) : isSleep (submitCall wk opts o) = false.
Proof. destruct wk; reflexivity. Qed.

(** The last call of a run decides its result. *)
Lemma RetryRun_last n o last w tr o' res w' :
  RetryRun h wk opts key n o last w tr o' res w' ->
  exists pre c r,
    tr = pre ++ [(c, r)]
    /\ match err r with
       | None => isWrite c = true /\ res = None
       | Some e =>
           (isRead c = true \/ isWrite c = true)
           /\ res = (if Interrupted e
                     then lastErrAfter key last pre
                     else Some (wrapFor key c e))
       end.
Proof.
  induction 1.
  - exists [], (ClientGet key (zeroObject (objKind o))), r.
    rewrite H0. simpl. auto.
  - exists [], (ClientGet key (zeroObject (objKind o))), r.
    rewrite H0, (IsConflict_not_Interrupted e H1). simpl. auto.
  - destruct IHRetryRun as (pre & c & r' & -> & Hres).
    exists ((ClientGet key (zeroObject (objKind o)), r) :: (Sleep, rs) :: pre),
      c, r'.
    split; [reflexivity |].
    erewrite lastErrAfter_get_conflict, lastErrAfter_sleep by eauto.
    exact Hres.
  - eexists [_], _, r2. split; [reflexivity |].
    rewrite H2, submitCall_isWrite. auto.
  - eexists [_], _, r2. split; [reflexivity |].
    rewrite H2. unfold wrapFor.
    rewrite submitCall_isWrite, submitCall_isRead.
    erewrite lastErrAfter_ok by eauto. simpl. auto.
  - eexists [_], _, r2. split; [reflexivity |].
    rewrite H2, (IsConflict_not_Interrupted e H3). unfold wrapFor.
    rewrite submitCall_isWrite, submitCall_isRead. auto.
  - destruct IHRetryRun as (pre & c & r' & -> & Hres).
    eexists (_ :: _ :: _ :: pre), c, r'. split; [reflexivity |].
    erewrite lastErrAfter_ok, lastErrAfter_submit_conflict,
      lastErrAfter_sleep by eauto.
    exact Hres.
Qed.

(** A run that returns a conflict has used every step, unless its last call
    failed with an error for which [wait.Interrupted] holds. *)
Lemma RetryRun_conflict_exhausted n o last w tr o' res w' :
  RetryRun h wk opts key n o last w tr o' res w' ->
  forall e, res = Some e -> IsConflict e = true ->
  attemptsIn tr = n
  \/ exists pre c r e',
       tr = pre ++ [(c, r)] /\ err r = Some e' /\ Interrupted e' = true.
Proof.
  induction 1; intros e0 Hres Hc;
    rewrite ?attemptsIn_get, ?attemptsIn_submit, ?attemptsIn_sleep,
      ?attemptsIn_nil.
  - unfold abortResult in Hres. destruct (Interrupted e) eqn:Ie.
    + right. exists [], (ClientGet key (zeroObject (objKind o))), r, e. auto.
    + injection Hres as <-. rewrite IsConflict_Errorf in Hc. congruence.
  - left. reflexivity.
  - destruct (IHRetryRun e0 Hres Hc) as [-> | (pre & c & r' & e' & -> & He)].
    + left. reflexivity.
    + right.
      exists ((ClientGet key (zeroObject (objKind o)), r) :: (Sleep, rs)
              :: pre), c, r', e'.
      auto.
  - discriminate.
  - unfold abortResult in Hres. destruct (Interrupted e) eqn:Ie.
    + right. eexists [_], _, r2, e. split; [reflexivity | auto].
    + injection Hres as <-. rewrite IsConflict_Errorf in Hc. congruence.
  - left. reflexivity.
  - destruct (IHRetryRun e0 Hres Hc) as [-> | (pre & c & r' & e' & -> & He)].
    + left. reflexivity.
    + right. eexists (_ :: _ :: _ :: pre), c, r', e'.
      split; [reflexivity | exact He].
Qed.

(** Attempts, writes and sleeps of a run. *)
Lemma RetryRun_counts n o last w tr o' res w' :
  RetryRun h wk opts key n o last w tr o' res w' ->
  countCalls isWrite tr <= attemptsIn tr
  /\ S (countCalls isSleep tr) = attemptsIn tr
  /\ length tr = attemptsIn tr + countCalls isWrite tr + countCalls isSleep tr.
Proof.
  unfold attemptsIn.
  induction 1; rewrite ?countCalls_cons;
    rewrite ?submitCall_isWrite, ?submitCall_isSleep,
      ?submitCall_isClientGet;
    simpl; unfold countCalls in *; simpl; lia.
Qed.

(** A run makes no other call than its read, its write and the sleep. *)
Lemma RetryRun_vocabulary n o last w tr o' res w' :
  RetryRun h wk opts key n o last w tr o' res w' ->
  Forall (fun ev => retryCall wk opts key (fst ev)) tr.
Proof.
  unfold retryCall.
  induction 1; repeat (constructor; [simpl; eauto |]); auto.
Qed.

(** A call of a retrying update is neither a Create nor a read through
    [apiReader], and a write among them has the kind and the options of the
    method. *)
Lemma retryCall_kind (c : Call) :
  retryCall wk opts key c ->
  isClientCreate c = false
  /\ isApiReaderGet c = false
  /\ (isWrite c = true -> exists o, c = submitCall wk opts o).
Proof.
  intros [(k & ->) | [(o & ->) | ->]]; simpl.
  - repeat split; auto. discriminate.
  - destruct wk; simpl; repeat split; eauto.
  - repeat split; auto. discriminate.
Qed.

End RetryWhole.

(** X4. The result of [UpdateWithRetry] and of [StatusUpdateWithRetry] is
    decided by the last call of the run.  When the last call is a write that
    was accepted, the result is nil.  When it is a read or a write that
    failed, the result is its error wrapped once with the object's key, and
    the wrapped error is classified NotFound, Conflict or AlreadyExists
    exactly when the error of that call is; unless [wait.Interrupted] holds
    for that error: then the result is the wrapped error of the most recent
    conflict of the run, or nil when the run has seen no conflict. *)
Theorem retrying_update_result_is_the_last_call
  (W : Type) (h : Call -> W -> Reply * W) (w : W)
  (wk : WriteKind) (obj : Object) (opts : list string) :
  let out := run h (retryingUpdate wk obj opts) w in
  let key := mkKey (objNamespace obj) (objName obj) in
  exists pre c r,
    traceOf out = pre ++ [(c, r)]
    /\ match err r with
       | None => isWrite c = true /\ snd (valueOf out) = None
       | Some e =>
           (isRead c = true \/ isWrite c = true)
           /\ if Interrupted e
              then snd (valueOf out) = lastErrAfter key None pre
              else
                let e' :=
                  Errorf (if isRead c then fetchFormat else updateFormat)
                    [key] e in
                snd (valueOf out) = Some e'
                /\ IsNotFound e' = IsNotFound e
                /\ IsConflict e' = IsConflict e
                /\ IsAlreadyExists e' = IsAlreadyExists e
       end.
Proof.
  cbv zeta. pose proof (retryingUpdate_RetryRun h wk obj opts w) as R.
  cbv zeta in R.
  destruct (RetryRun_last R) as (pre & c & r & Htr & Hres).
  exists pre, c, r. split; [exact Htr |].
  destruct (err r) as [e |]; [| exact Hres].
  destruct Hres as [Hk Hres]. split; [exact Hk |].
  destruct (Interrupted e); [exact Hres |].
  repeat split; auto.
Qed.


(** X6. A run of [UpdateWithRetry] or [StatusUpdateWithRetry] makes between
    one and [Steps DefaultRetry] attempts, at most one write per attempt, and
    sleeps exactly once between two attempts; so it makes at most
    fourteen calls. *)
Theorem retrying_update_call_budget
  (W : Type) (h : Call -> W -> Reply * W) (w : W)
  (wk : WriteKind) (obj : Object) (opts : list string) :
  let tr := traceOf (run h (retryingUpdate wk obj opts) w) in
  1 <= attemptsIn tr <= Steps DefaultRetry
  /\ countCalls isWrite tr <= attemptsIn tr
  /\ S (countCalls isSleep tr) = attemptsIn tr
  /\ length tr = attemptsIn tr + countCalls isWrite tr + countCalls isSleep tr
  /\ length tr <= 14.
Proof.
  cbv zeta. pose proof (retryingUpdate_RetryRun h wk obj opts w) as R.
  cbv zeta in R.
  pose proof (RetryRun_attempts R) as Ha.
  destruct (RetryRun_counts R) as (Hw & Hs & Hl).
  change (Steps DefaultRetry) with 5 in *.
  repeat split; try lia.
Qed.

(** X7. [UpdateWithRetry] submits full updates only and
    [StatusUpdateWithRetry] status updates only, each with the options the
    caller passed; neither ever calls Create or reads through
    [apiReader]. *)
Theorem retrying_update_calls_only_its_own_write
  (W : Type) (h : Call -> W -> Reply * W) (w : W)
  (wk : WriteKind) (obj : Object) (opts : list string) :
  let tr := traceOf (run h (retryingUpdate wk obj opts) w) in
  Forall (fun ev =>
            isClientCreate (fst ev) = false
            /\ isApiReaderGet (fst ev) = false
            /\ (if isWrite (fst ev)
                then exists o,
                    fst ev = match wk with
                             | FullUpdate => ClientUpdate o opts
                             | StatusSubresource => ClientStatusUpdate o opts
                             end
                else True)) tr.
Proof.
  cbv zeta. pose proof (retryingUpdate_RetryRun h wk obj opts w) as R.
  cbv zeta in R.
  eapply Forall_impl; [| exact (RetryRun_vocabulary R)].
  intros [c r] Hc. simpl in *.
  destruct (retryCall_kind Hc) as (Hcreate & Hapi & Hwrite).
  repeat split; auto.
  destruct (isWrite c) eqn:Hw; [| exact I].
  destruct (Hwrite eq_refl) as (o & ->). exists o. destruct wk; reflexivity.
Qed.

(** X8. Without contention a retrying update is one read followed by one
    plain write.  When the first read succeeds and the write of the caller's
    object, stamped with the version read, is accepted, the run consists of
    these two calls and returns nil; [UpdateWithRetry] then ends as
    [Update], and [StatusUpdateWithRetry] as [StatusUpdate], called on the
    stamped object after the read. *)
Theorem retrying_update_without_contention
  (W : Type) (h : Call -> W -> Reply * W) (w : W)
  (wk : WriteKind) (obj : Object) (opts : list string) :
  let key := mkKey (objNamespace obj) (objName obj) in
  let read := h (ClientGet key (zeroObject (objKind obj))) w in
  let stamped :=
    SetResourceVersion (GetResourceVersion (after (fst read))) obj in
  let plain :=
    run h (match wk with
           | FullUpdate => CustomCtrlClient.Update stamped opts
           | StatusSubresource => CustomCtrlClient.StatusUpdate stamped opts
           end) (snd read) in
  err (fst read) = None ->
  snd (valueOf plain) = None ->
  run h (retryingUpdate wk obj opts) w
  = (valueOf plain, worldOf plain,
     (ClientGet key (zeroObject (objKind obj)), fst read) :: traceOf plain)
  /\ snd (valueOf (run h (retryingUpdate wk obj opts) w)) = None
  /\ length (traceOf (run h (retryingUpdate wk obj opts) w)) = 2.
Proof.
  cbv zeta. intros Hread Hwrite.
  assert (run h (retryingUpdate wk obj opts) w
          = run h (onErrorFrom 5 IsConflict
                     (retryAttempt wk opts (keyOf obj)) (obj, None)) w)
    as -> by (destruct wk; reflexivity).
  rewrite onErrorFrom_S, retryAttempt_run. unfold keyOf, GetNamespace, GetName.
  destruct (h (ClientGet (mkKey (objNamespace obj) (objName obj))
                 (zeroObject (objKind obj))) w) as [r1 w1].
  simpl fst in *. simpl snd in *. rewrite Hread. cbv zeta.
  assert (forall o,
            run h (match wk with
                   | FullUpdate => CustomCtrlClient.Update o opts
                   | StatusSubresource => CustomCtrlClient.StatusUpdate o opts
                   end) w1
            = (let '(r2, w2) := h (submitCall wk opts o) w1 in
               ((after r2, err r2), w2, [(submitCall wk opts o, r2)])))
    as Hplain.
  { intros o. destruct wk; simpl;
      destruct (h _ w1) as [r2 w2]; reflexivity. }
  rewrite Hplain in *.
  destruct (h (submitCall wk opts _) w1) as [r2 w2].
  unfold valueOf, worldOf, traceOf in *. simpl in Hwrite. simpl.
  rewrite Hwrite. auto.
Qed.

(** ** Building the client as a whole *)

Lemma map_fst_allEstablished (l : list Kind) :
  map fst (allEstablished l) = map GetInformer l.
Proof. unfold allEstablished. rewrite map_map. reflexivity. Qed.

Lemma Forall_allEstablished (l : list Kind) :
  Forall (fun ev : BuildEvent => snd ev = None) (allEstablished l).
Proof.
  unfold allEstablished. apply Forall_forall. intros ev Hin.
  apply in_map_iff in Hin as (k & <- & _). reflexivity.
Qed.

(** A build stops at the call that fails, and its calls are the first calls
    of [buildSequence]. *)
Lemma BuildRun_stops (key value : string)
  (tr : list BuildEvent) (res : Result BuiltClient) :
  BuildRun key value tr res ->
  exists pre c e,
    tr = pre ++ [(c, e)]
    /\ Forall (fun ev => snd ev = None) pre
    /\ res = buildResult key value e
    /\ (exists rest, buildSequence key value = map fst tr ++ rest)
    /\ match e with
       | None => map fst tr = buildSequence key value
       | Some _ => True
       end.
Proof.
  unfold buildSequence. destruct 1.
  - exists [], (NewRequirement key selection_Equals [value]), (Some e).
    refine (conj eq_refl (conj _ (conj eq_refl (conj _ I)))).
    + constructor.
    + eexists. reflexivity.
  - exists [(NewRequirement key selection_Equals [value], None)],
      (CacheNew (customCacheOpts key value)), (Some e).
    refine (conj eq_refl (conj _ (conj eq_refl (conj _ I)))).
    + repeat constructor.
    + eexists. reflexivity.
  - exists ((NewRequirement key selection_Equals [value], None)
            :: (CacheNew (customCacheOpts key value), None)
            :: allEstablished before), (GetInformer k), (Some e).
    refine (conj eq_refl (conj _ (conj eq_refl (conj _ I)))).
    + repeat constructor; apply Forall_allEstablished.
    + exists (map GetInformer later
              ++ [MgrAdd;
                  ClientNew (mkClientOptions (customCacheOpts key value))]).
      rewrite H. cbn [map fst app].
      rewrite !map_app, map_fst_allEstablished. cbn [map fst app].
      rewrite <- !app_assoc. reflexivity.
  - exists ((NewRequirement key selection_Equals [value], None)
            :: (CacheNew (customCacheOpts key value), None)
            :: allEstablished informerResources), MgrAdd, (Some e).
    refine (conj eq_refl (conj _ (conj eq_refl (conj _ I)))).
    + repeat constructor; apply Forall_allEstablished.
    + exists [ClientNew (mkClientOptions (customCacheOpts key value))].
      cbn [map fst app]. rewrite !map_app, map_fst_allEstablished.
      rewrite <- !app_assoc. reflexivity.
  - exists ((NewRequirement key selection_Equals [value], None)
            :: (CacheNew (customCacheOpts key value), None)
            :: allEstablished informerResources ++ [(MgrAdd, None)]),
      (ClientNew (mkClientOptions (customCacheOpts key value))), (Some e).
    refine (conj _ (conj _ (conj eq_refl (conj _ I)))).
    + cbn [app]. rewrite <- app_assoc. reflexivity.
    + repeat constructor;
        try (apply Forall_app; split);
        try apply Forall_allEstablished; repeat constructor.
    + exists []. cbn [map fst app].
      rewrite !map_app, map_fst_allEstablished, app_nil_r. reflexivity.
  - exists ((NewRequirement key selection_Equals [value], None)
            :: (CacheNew (customCacheOpts key value), None)
            :: allEstablished informerResources ++ [(MgrAdd, None)]),
      (ClientNew (mkClientOptions (customCacheOpts key value))), None.
    refine (conj _ (conj _ (conj eq_refl (conj _ _)))).
    + cbn [app]. rewrite <- app_assoc. reflexivity.
    + repeat constructor;
        try (apply Forall_app; split);
        try apply Forall_allEstablished; repeat constructor.
    + exists []. cbn [map fst app].
      rewrite !map_app, map_fst_allEstablished, app_nil_r. reflexivity.
    + cbn [map fst app].
      rewrite !map_app, map_fst_allEstablished. reflexivity.
Qed.

(** X9. [BuildCustomClient] makes its calls in one fixed order (the label
    requirement, the cache, the informers in the order of
    [informerResources], the registration with the manager, the client) and
    stops at the first call that fails: every call before the last one
    succeeded, and the result is the error of the last call, unchanged, or
    the client when the last call succeeded, in which case all the calls
    have been made.  [NewCustomClient] makes the same calls and no other,
    and wraps that error once. *)
Theorem BuildCustomClient_stops_at_the_first_failure
  (key value : string)
  (W : Type) (h : BuildCall -> W -> option error * W) (w : W) :
  let build := run h (BuildCustomClient key value) w in
  let new := run h (NewCustomClient key value) w in
  exists pre c e,
    traceOf build = pre ++ [(c, e)]
    /\ Forall (fun ev => snd ev = None) pre
    /\ valueOf build = buildResult key value e
    /\ (exists rest,
          buildSequence key value = map fst (traceOf build) ++ rest)
    /\ match e with
       | None => map fst (traceOf build) = buildSequence key value
       | Some e' =>
           valueOf new = Failed (Errorf buildFormat [] e')
           /\ IsNotFound (Errorf buildFormat [] e') = IsNotFound e'
       end
    /\ traceOf new = traceOf build.
Proof.
  cbv zeta.
  pose proof (BuildCustomClient_BuildRun key value h w) as B. cbv zeta in B.
  destruct (NewCustomClient_run key value h w) as [Htr Hval].
  destruct (BuildRun_stops B) as (pre & c & e & Hpre & Hok & Hres & Hseq & Hall).
  exists pre, c, e. repeat split; auto.
  destruct e as [e' |]; [| exact Hall].
  rewrite Hval, Hres. simpl. auto.
Qed.

Lemma cached_iff_informer (key value : string) (k : Kind) :
  mapLoad k (customCacheObjects key value) <> None <-> In k informerResources.
Proof.
  destruct k; split; intros H; simpl in *;
    try discriminate; try (auto 20; fail); try congruence;
    intuition discriminate.
Qed.

Lemma BuildRun_informers (key value : string)
  (tr : list BuildEvent) (res : Result BuiltClient) :
  BuildRun key value tr res ->
  forall k e, In (GetInformer k, e) tr -> In k informerResources.
Proof.
  destruct 1; intros k0 e0 Hin;
    repeat (destruct Hin as [Hin | Hin]; [discriminate |]);
    try contradiction;
    apply in_app_iff in Hin as [Hin | Hin];
    try (apply In_allEstablished in Hin as [_ Hin]);
    try (simpl in Hin; intuition discriminate).
  - rewrite H. apply in_or_app. left. exact Hin.
  - simpl in Hin. destruct Hin as [Hin | []]. injection Hin as <- _.
    rewrite H. apply in_or_app. right. left. reflexivity.
  - exact Hin.
  - exact Hin.
  - exact Hin.
Qed.

(** X10. [BuildCustomClient] asks for an informer only for kinds that have
    an entry in the map of cached objects, and when it succeeds every kind
    that has an entry has its informer established: the cache never holds a
    configured kind without an informer. *)
Theorem informers_match_the_cached_kinds
  (key value : string)
  (W : Type) (h : BuildCall -> W -> option error * W) (w : W) :
  let out := run h (BuildCustomClient key value) w in
  Forall (fun ev =>
            match fst ev with
            | GetInformer k =>
                mapLoad k (customCacheObjects key value) <> None
            | _ => True
            end) (traceOf out)
  /\ match valueOf out with
     | Ok _ =>
         forall k,
           mapLoad k (customCacheObjects key value) <> None ->
           established k (traceOf out)
     | Failed _ => True
     end.
Proof.
  cbv zeta.
  pose proof (BuildCustomClient_BuildRun key value h w) as B. cbv zeta in B.
  split.
  - apply Forall_forall. intros [c e] Hin. simpl.
    destruct c; auto.
    apply cached_iff_informer. exact (BuildRun_informers B _ _ Hin).
  - destruct (valueOf (run h (BuildCustomClient key value) w)) as [c | e]
      eqn:Hv; [| exact I].
    intros k Hk. apply cached_iff_informer in Hk.
    exact (BuildRun_built B Hk).
Qed.

(** ** The further properties on concrete runs *)

(** With cache and API server in step, [UpdateWithRetry] is one read and one
    accepted write. *)
Lemma retrying_update_without_contention_witness :
  let out :=
    run cluster (retryingUpdate FullUpdate (configMap "" "new") [])
        syncedCluster in
  snd (valueOf out) = None /\ length (traceOf out) = 2.
Proof.
  cbv zeta.
  exact (proj2 (retrying_update_without_contention cluster syncedCluster
                  FullUpdate (configMap "" "new") [] eq_refl eq_refl)).
Defined.

(** When every call succeeds, the informer of Deployment, a kind with an
    entry in the map, is established. *)
Lemma informers_match_the_cached_kinds_witness :
  established Deployment
    (traceOf (run allSucceed
                  (BuildCustomClient "app.kubernetes.io/managed-by"
                     "zero-trust-workload-identity-manager") tt)).
Proof.
  destruct (informers_match_the_cached_kinds "app.kubernetes.io/managed-by"
              "zero-trust-workload-identity-manager" allSucceed tt)
    as [_ Hok].
  apply Hok. discriminate.
Defined.
